(** * FinalSignalDist: lowest-cost signal distribution block

    A shallow embedding of [FinalSignalDist.cpp].  The program holds four
    catalogs of RF components, walks their Cartesian product with four nested
    [for] loops and keeps the cheapest combination that meets the ON-state,
    OFF-state and attenuator checks.

    A C++ [double] is an IEEE 754 binary64 value: it is modelled by Rocq's
    primitive [float], whose operations are the binary64 ones (round to nearest
    even), with NaN, the two infinities and the two zeros; every sum is
    rounded to binary64, as on a target that evaluates [double] expressions in
    double precision.  A [std::string] is a [string], a [std::vector] a
    [list], and the text sent to [cout] is the list of the items inserted into
    the stream. *)

From Stdlib Require Import List String Bool ZArith PArith Lia Floats.
Import ListNotations.

#[local] Open Scope string_scope.
#[local] Open Scope list_scope.

#[local] Open Scope float_scope.
#[local] Set Warnings "-inexact-float".

(** ** The [double] type *)

Definition double : Set := float.

(** [x >= y] on doubles is [y <= x]; every comparison is false as soon as one
    side is NaN. *)
Notation "x >=? y" := (PrimFloat.leb y x) (at level 70, only parsing) : float_scope.

(** [x == x] fails on NaN and on nothing else. *)
Definition not_nan (x : double) : bool := x =? x.

(** [std::numeric_limits<double>::max()], the largest finite double. *)
Definition DBL_MAX : double := 0x1.fffffffffffffp+1023.

(** ** Components *)

(** The base class [Component]: something that has a cost. *)
Class Component (A : Set) : Set := getCost : A -> double.

Module Amplifier.
Record t : Set := make {
  name : string;
  gain_min_1GHz : double;
  gain_max_1GHz : double;
  gain_min_20GHz : double;
  gain_max_20GHz : double;
  P1dB_1GHz : double;
  P1dB_20GHz : double;
  cost : double
}.
End Amplifier.

Module Switch.
Record t : Set := make {
  name : string;
  gain_1GHz_typ : double;
  gain_20GHz_typ : double;
  leakage_1GHz : double;
  leakage_20GHz : double;
  P1dB_input : double;
  cost : double
}.
End Switch.

Module Attenuator.
Record t : Set := Build {
  name : string;
  gain : double; (* negative value for attenuation *)
  max_attenuation : double;
  P1dB_input : double;
  cost : double
}.
(** The constructor takes no cost: the cost of an attenuator is 0. *)
Definition make (n : string) (g max_att p1dB : double) : t :=
  Build n g max_att p1dB 0.0.
End Attenuator.

Module PowerDivider.
Record t : Set := Build {
  name : string;
  gain_1GHz : double;
  gain_20GHz : double;
  cost : double
}.
(** The constructor takes no cost: the cost of a power divider is 0. *)
Definition make (n : string) (g_1 g_20 : double) : t := Build n g_1 g_20 0.0.
End PowerDivider.

#[export] Instance Amplifier_Component : Component Amplifier.t := Amplifier.cost.
#[export] Instance Switch_Component : Component Switch.t := Switch.cost.
#[export] Instance Attenuator_Component : Component Attenuator.t := Attenuator.cost.
#[export] Instance PowerDivider_Component : Component PowerDivider.t := PowerDivider.cost.

(** ** [ConfigurationFinder::printBestConfiguration] *)

(** Assume input power Pin = 0 dBm. *)
Definition input_power_dBm : double := 0.

(** The values computed at the head of the innermost loop body, one field per
    local variable. *)
Record Locals : Set := {
  total_cost : double;
  effective_gain_max_1GHz : double;
  effective_gain_max_20GHz : double;
  effective_gain_min_1GHz : double;
  effective_gain_min_20GHz : double;
  max_output_power_1GHz : double;
  max_output_power_20GHz : double;
  min_output_power_1GHz : double;
  min_output_power_20GHz : double
}.

Definition locals (amp : Amplifier.t) (sw : Switch.t) (att : Attenuator.t)
    (div : PowerDivider.t) : Locals :=
  let total_cost := getCost amp + getCost sw + getCost att + getCost div in
  let effective_gain_max_1GHz :=
    Amplifier.gain_max_1GHz amp + Attenuator.gain att + PowerDivider.gain_1GHz div in
  let effective_gain_max_20GHz :=
    Amplifier.gain_max_20GHz amp + Attenuator.gain att + PowerDivider.gain_20GHz div in
  let effective_gain_min_1GHz :=
    Amplifier.gain_min_1GHz amp + Attenuator.gain att + PowerDivider.gain_1GHz div in
  let effective_gain_min_20GHz :=
    Amplifier.gain_min_20GHz amp + Attenuator.gain att + PowerDivider.gain_20GHz div in
  let max_output_power_1GHz := input_power_dBm + effective_gain_max_1GHz in
  let max_output_power_20GHz := input_power_dBm + effective_gain_max_20GHz in
  let min_output_power_1GHz := input_power_dBm + effective_gain_min_1GHz in
  let min_output_power_20GHz := input_power_dBm + effective_gain_min_20GHz in
  {| total_cost := total_cost;
     effective_gain_max_1GHz := effective_gain_max_1GHz;
     effective_gain_max_20GHz := effective_gain_max_20GHz;
     effective_gain_min_1GHz := effective_gain_min_1GHz;
     effective_gain_min_20GHz := effective_gain_min_20GHz;
     max_output_power_1GHz := max_output_power_1GHz;
     max_output_power_20GHz := max_output_power_20GHz;
     min_output_power_1GHz := min_output_power_1GHz;
     min_output_power_20GHz := min_output_power_20GHz |}.

(** Check ON state specifications. *)
Definition on_state_ok (amp : Amplifier.t) (sw : Switch.t) (l : Locals) : bool :=
  (max_output_power_1GHz l <=? Amplifier.P1dB_1GHz amp) &&
  (max_output_power_20GHz l <=? Amplifier.P1dB_20GHz amp) &&
  (Switch.gain_1GHz_typ sw >=? -1.0) && (Switch.gain_20GHz_typ sw >=? -2.0) &&
  (Amplifier.P1dB_1GHz amp >=? 12) && (Amplifier.P1dB_20GHz amp >=? 10.5).

(** Check OFF state specifications. *)
Definition off_state_ok (sw : Switch.t) : bool :=
  (Switch.leakage_1GHz sw <? -55) && (Switch.leakage_20GHz sw <? -20).

(** Check if the attenuator gain does not exceed its max attenuation. *)
Definition attenuation_ok (att : Attenuator.t) : bool :=
  - Attenuator.gain att <=? Attenuator.max_attenuation att.

(** The text stored in [best_combination] for a combination. *)
Definition combination_text (amp : Amplifier.t) (sw : Switch.t) (att : Attenuator.t)
    (div : PowerDivider.t) : string :=
  "Amplifier: " ++ Amplifier.name amp ++ ", Switch: " ++ Switch.name sw ++
  ", Attenuator: " ++ Attenuator.name att ++ ", Power Divider: " ++ PowerDivider.name div.

(** The two variables the loops update: [min_cost] and [best_combination]. *)
Definition State : Set := double * string.

(** The body of the innermost loop. *)
Definition loop_body (amp : Amplifier.t) (sw : Switch.t) (att : Attenuator.t)
    (div : PowerDivider.t) (st : State) : State :=
  let '(min_cost, best_combination) := st in
  let l := locals amp sw att div in
  if on_state_ok amp sw l then
    if off_state_ok sw then
      if attenuation_ok att then
        if total_cost l <? min_cost then
          (total_cost l, combination_text amp sw att div)
        else st
      else st
    else st
  else st.

(** The four nested loops, from [min_cost = max()] and an empty
    [best_combination]. *)
Definition search (amplifiers : list Amplifier.t) (switches : list Switch.t)
    (attenuators : list Attenuator.t) (dividers : list PowerDivider.t) : State :=
  fold_left (fun st amp =>
    fold_left (fun st sw =>
      fold_left (fun st att =>
        fold_left (fun st div => loop_body amp sw att div st) dividers st)
      attenuators st)
    switches st)
  amplifiers (DBL_MAX, "").

(** What is inserted into [cout]: a string, a double (printed by the stream
    in its default format) or [endl]. *)
Inductive cout_item : Set :=
| Str (s : string)
| Dbl (d : double)
| Endl.

Definition string_empty (s : string) : bool :=
  match s with EmptyString => true | String _ _ => false end.

Definition no_valid_message : list cout_item :=
  [Str "No valid configuration found that meets the specifications."; Endl].

Definition best_message (best_combination : string) (min_cost : double) : list cout_item :=
  [Str "*******Best Configuration:*******"; Endl;
   Str best_combination; Str " with total cost: $"; Dbl min_cost; Endl].

Definition printBestConfiguration (amplifiers : list Amplifier.t)
    (switches : list Switch.t) (attenuators : list Attenuator.t)
    (dividers : list PowerDivider.t) : list cout_item :=
  let '(min_cost, best_combination) := search amplifiers switches attenuators dividers in
  if negb (string_empty best_combination) then best_message best_combination min_cost
  else no_valid_message.

(** ** [main]: the example data *)

Definition amplifiers : list Amplifier.t :=
  [ Amplifier.make "Amp-A" 19.0 15.0 18.0 14.0 12.0 10.5 100.0;
    Amplifier.make "Amp-B" 18.0 14.0 17.0 13.0 11.0 9.5 120.0 ].

Definition switches : list Switch.t :=
  [ Switch.make "Switch-1" 0.5 0.4 (-60.0) (-25.0) 15.0 50.0;
    Switch.make "Switch-2" 0.6 0.5 (-58.0) (-22.0) 14.0 60.0 ].

Definition attenuators : list Attenuator.t :=
  [ Attenuator.make "Attenuator-1" (-3.0) 10.0 20.0;
    Attenuator.make "Attenuator-2" (-6.0) 15.0 20.0 ].

Definition dividers : list PowerDivider.t :=
  [ PowerDivider.make "Divider-1" 0.0 0.0;
    PowerDivider.make "Divider-2" 0.0 0.0 ].

(** What [main] writes, and its return value. *)
Definition main : list cout_item * Z :=
  (printBestConfiguration amplifiers switches attenuators dividers, 0%Z).

(** ** Vocabulary of the specification *)

(** One member of each catalog. *)
Definition Combination : Set :=
  (Amplifier.t * Switch.t * Attenuator.t * PowerDivider.t)%type.

(** The combinations in the order the nested loops visit them: amplifier
    outermost, then switch, then attenuator, power divider innermost. *)
Definition product (amplifiers : list Amplifier.t) (switches : list Switch.t)
    (attenuators : list Attenuator.t) (dividers : list PowerDivider.t)
    : list Combination :=
  flat_map (fun amp =>
    flat_map (fun sw =>
      flat_map (fun att =>
        map (fun div => (amp, sw, att, div)) dividers)
      attenuators)
    switches)
  amplifiers.

(** The loop body seen as a function of the combination. *)
Definition visit (st : State) (c : Combination) : State :=
  let '(amp, sw, att, div) := c in loop_body amp sw att div st.

(** A combination is feasible when it passes the three nested checks. *)
Definition feasible (c : Combination) : bool :=
  let '(amp, sw, att, div) := c in
  on_state_ok amp sw (locals amp sw att div) && off_state_ok sw && attenuation_ok att.

Definition cost_of (c : Combination) : double :=
  let '(amp, sw, att, div) := c in total_cost (locals amp sw att div).

Definition text_of (c : Combination) : string :=
  let '(amp, sw, att, div) := c in combination_text amp sw att div.

(** The nine predicates of the specification, in its words and its order. *)
Definition nine_predicates (amp : Amplifier.t) (sw : Switch.t) (att : Attenuator.t)
    (div : PowerDivider.t) : Prop :=
  let l := locals amp sw att div in
  (max_output_power_1GHz l <=? Amplifier.P1dB_1GHz amp) = true /\
  (max_output_power_20GHz l <=? Amplifier.P1dB_20GHz amp) = true /\
  (Switch.gain_1GHz_typ sw >=? -1.0) = true /\
  (Switch.gain_20GHz_typ sw >=? -2.0) = true /\
  (Amplifier.P1dB_1GHz amp >=? 12) = true /\
  (Amplifier.P1dB_20GHz amp >=? 10.5) = true /\
  (Switch.leakage_1GHz sw <? -55) = true /\
  (Switch.leakage_20GHz sw <? -20) = true /\
  (- Attenuator.gain att <=? Attenuator.max_attenuation att) = true.

(** Record updates, to speak of two inputs that differ in chosen fields. *)
Definition amp_with_cost (amp : Amplifier.t) (c : double) : Amplifier.t :=
  Amplifier.make (Amplifier.name amp)
    (Amplifier.gain_min_1GHz amp) (Amplifier.gain_max_1GHz amp)
    (Amplifier.gain_min_20GHz amp) (Amplifier.gain_max_20GHz amp)
    (Amplifier.P1dB_1GHz amp) (Amplifier.P1dB_20GHz amp) c.

Definition sw_with_cost (sw : Switch.t) (c : double) : Switch.t :=
  Switch.make (Switch.name sw) (Switch.gain_1GHz_typ sw) (Switch.gain_20GHz_typ sw)
    (Switch.leakage_1GHz sw) (Switch.leakage_20GHz sw) (Switch.P1dB_input sw) c.

Definition att_with_cost (att : Attenuator.t) (c : double) : Attenuator.t :=
  Attenuator.Build (Attenuator.name att) (Attenuator.gain att)
    (Attenuator.max_attenuation att) (Attenuator.P1dB_input att) c.

Definition div_with_cost (div : PowerDivider.t) (c : double) : PowerDivider.t :=
  PowerDivider.Build (PowerDivider.name div) (PowerDivider.gain_1GHz div)
    (PowerDivider.gain_20GHz div) c.

Definition sw_with_leakage_1GHz (sw : Switch.t) (leak_1 : double) : Switch.t :=
  Switch.make (Switch.name sw) (Switch.gain_1GHz_typ sw) (Switch.gain_20GHz_typ sw)
    leak_1 (Switch.leakage_20GHz sw) (Switch.P1dB_input sw) (Switch.cost sw).

Definition sw_with_leakage_20GHz (sw : Switch.t) (leak_20 : double) : Switch.t :=
  Switch.make (Switch.name sw) (Switch.gain_1GHz_typ sw) (Switch.gain_20GHz_typ sw)
    (Switch.leakage_1GHz sw) leak_20 (Switch.P1dB_input sw) (Switch.cost sw).

(** Two amplifiers that agree on every field but the two minimum gains. *)
Definition same_but_gain_min (a a' : Amplifier.t) : Prop :=
  Amplifier.name a = Amplifier.name a' /\
  Amplifier.gain_max_1GHz a = Amplifier.gain_max_1GHz a' /\
  Amplifier.gain_max_20GHz a = Amplifier.gain_max_20GHz a' /\
  Amplifier.P1dB_1GHz a = Amplifier.P1dB_1GHz a' /\
  Amplifier.P1dB_20GHz a = Amplifier.P1dB_20GHz a' /\
  Amplifier.cost a = Amplifier.cost a'.

(** Two switches that agree on every field but [P1dB_input]. *)
Definition sw_same_but_P1dB_input (s s' : Switch.t) : Prop :=
  Switch.name s = Switch.name s' /\
  Switch.gain_1GHz_typ s = Switch.gain_1GHz_typ s' /\
  Switch.gain_20GHz_typ s = Switch.gain_20GHz_typ s' /\
  Switch.leakage_1GHz s = Switch.leakage_1GHz s' /\
  Switch.leakage_20GHz s = Switch.leakage_20GHz s' /\
  Switch.cost s = Switch.cost s'.

(** Two attenuators that agree on every field but [P1dB_input]. *)
Definition att_same_but_P1dB_input (t t' : Attenuator.t) : Prop :=
  Attenuator.name t = Attenuator.name t' /\
  Attenuator.gain t = Attenuator.gain t' /\
  Attenuator.max_attenuation t = Attenuator.max_attenuation t' /\
  Attenuator.cost t = Attenuator.cost t'.

(** Combinations related component by component. *)
Definition related (Ra : Amplifier.t -> Amplifier.t -> Prop)
    (Rs : Switch.t -> Switch.t -> Prop) (Rt : Attenuator.t -> Attenuator.t -> Prop)
    (Rd : PowerDivider.t -> PowerDivider.t -> Prop) (c c' : Combination) : Prop :=
  let '(amp, sw, att, div) := c in
  let '(amp', sw', att', div') := c' in
  Ra amp amp' /\ Rs sw sw' /\ Rt att att' /\ Rd div div'.

(** Two combinations on which the loop body reads the same values. *)
Definition alike (c c' : Combination) : Prop :=
  feasible c = feasible c' /\ cost_of c = cost_of c' /\ text_of c = text_of c'.

(** ** What one pass leaves in [min_cost] and [best_combination] *)

(** Nothing was retained: the state is the initial one and no feasible
    combination costs less than the initial [min_cost]. *)
Definition none_retained (l : list Combination) (st : State) : Prop :=
  st = (DBL_MAX, "") /\
  forall u, In u l -> feasible u = true -> (cost_of u <? DBL_MAX) = false.

(** Combination [c], found after [pre] and before [post], was retained. *)
Definition retained (l : list Combination) (st : State)
    (pre : list Combination) (c : Combination) (post : list Combination) : Prop :=
  l = pre ++ c :: post /\
  feasible c = true /\
  st = (cost_of c, text_of c) /\
  (cost_of c <? DBL_MAX) = true /\
  (forall u, In u l -> feasible u = true -> (cost_of u <? cost_of c) = false) /\
  (forall u, In u pre -> feasible u = true -> (cost_of u =? cost_of c) = false).

(** ** Example inputs *)

(** The text [main] is expected to report. *)
Definition golden_text : string :=
  "Amplifier: Amp-A, Switch: Switch-1, Attenuator: Attenuator-2, Power Divider: Divider-1".

Definition Amp_A : Amplifier.t := Amplifier.make "Amp-A" 19.0 15.0 18.0 14.0 12.0 10.5 100.0.
Definition Switch_1 : Switch.t := Switch.make "Switch-1" 0.5 0.4 (-60.0) (-25.0) 15.0 50.0.
Definition Attenuator_2 : Attenuator.t := Attenuator.make "Attenuator-2" (-6.0) 15.0 20.0.
Definition Divider_1 : PowerDivider.t := PowerDivider.make "Divider-1" 0.0 0.0.

Definition Amp_B : Amplifier.t := Amplifier.make "Amp-B" 18.0 14.0 17.0 13.0 11.0 9.5 120.0.

(** Amp-A with other costs: NaN, the largest finite double, a negative one. *)
Definition Amp_nan_cost : Amplifier.t := amp_with_cost Amp_A nan.
Definition Amp_max_cost : Amplifier.t := amp_with_cost Amp_A DBL_MAX.
Definition Amp_negative_cost : Amplifier.t := amp_with_cost Amp_A (-100.0).

(** The double nearest to -55.0001, which is what the literal denotes. *)
Definition just_below_minus_55 : double := -0x1.b800346dc5d64p+5.

(** The example catalogs with other values in the fields the search does
    not read. *)
Definition amplifiers_other_gain_min : list Amplifier.t :=
  [ Amplifier.make "Amp-A" (-40.0) 15.0 nan 14.0 12.0 10.5 100.0;
    Amplifier.make "Amp-B" 250.0 14.0 infinity 13.0 11.0 9.5 120.0 ].

Definition switches_other_P1dB_input : list Switch.t :=
  [ Switch.make "Switch-1" 0.5 0.4 (-60.0) (-25.0) (-15.0) 50.0;
    Switch.make "Switch-2" 0.6 0.5 (-58.0) (-22.0) nan 60.0 ].

Definition attenuators_other_P1dB_input : list Attenuator.t :=
  [ Attenuator.make "Attenuator-1" (-3.0) 10.0 0.0;
    Attenuator.make "Attenuator-2" (-6.0) 15.0 infinity ].

(** ** The loop nest on its own *)


(** ** Vocabulary for the search as a whole *)

(** What two runs leave when one follows the other: the second state wins
    when its cost is strictly below the cost of the first. *)
Definition merge (st1 st2 : State) : State :=
  if fst st2 <? fst st1 then st2 else st1.

(** The checks of the loop body that read one component only. *)
Definition amp_ok (amp : Amplifier.t) : bool :=
  (Amplifier.P1dB_1GHz amp >=? 12) && (Amplifier.P1dB_20GHz amp >=? 10.5).

Definition sw_ok (sw : Switch.t) : bool :=
  (Switch.gain_1GHz_typ sw >=? -1.0) && (Switch.gain_20GHz_typ sw >=? -2.0) &&
  off_state_ok sw.

(** The check that reads the amplifier, the attenuator and the divider
    together: the maximum output powers against the compression points. *)
Definition power_ok (amp : Amplifier.t) (att : Attenuator.t) (div : PowerDivider.t) : bool :=
  (Amplifier.gain_max_1GHz amp + Attenuator.gain att + PowerDivider.gain_1GHz div
     <=? Amplifier.P1dB_1GHz amp) &&
  (Amplifier.gain_max_20GHz amp + Attenuator.gain att + PowerDivider.gain_20GHz div
     <=? Amplifier.P1dB_20GHz amp).

(** A combination none of whose components fails a check of its own. *)
Definition keep (c : Combination) : bool :=
  let '(amp, sw, att, div) := c in amp_ok amp && sw_ok sw && attenuation_ok att.

(** The twelve fields the three checks read. *)
Definition checked_fields (c : Combination) : list double :=
  let '(amp, sw, att, div) := c in
  [ Amplifier.gain_max_1GHz amp; Amplifier.gain_max_20GHz amp;
    Amplifier.P1dB_1GHz amp; Amplifier.P1dB_20GHz amp;
    Switch.gain_1GHz_typ sw; Switch.gain_20GHz_typ sw;
    Switch.leakage_1GHz sw; Switch.leakage_20GHz sw;
    Attenuator.gain att; Attenuator.max_attenuation att;
    PowerDivider.gain_1GHz div; PowerDivider.gain_20GHz div ].

(** Components that agree on every field but the name. *)
Definition amp_same_but_name (a a' : Amplifier.t) : Prop :=
  Amplifier.gain_min_1GHz a = Amplifier.gain_min_1GHz a' /\
  Amplifier.gain_max_1GHz a = Amplifier.gain_max_1GHz a' /\
  Amplifier.gain_min_20GHz a = Amplifier.gain_min_20GHz a' /\
  Amplifier.gain_max_20GHz a = Amplifier.gain_max_20GHz a' /\
  Amplifier.P1dB_1GHz a = Amplifier.P1dB_1GHz a' /\
  Amplifier.P1dB_20GHz a = Amplifier.P1dB_20GHz a' /\
  Amplifier.cost a = Amplifier.cost a'.

Definition sw_same_but_name (s s' : Switch.t) : Prop :=
  Switch.gain_1GHz_typ s = Switch.gain_1GHz_typ s' /\
  Switch.gain_20GHz_typ s = Switch.gain_20GHz_typ s' /\
  Switch.leakage_1GHz s = Switch.leakage_1GHz s' /\
  Switch.leakage_20GHz s = Switch.leakage_20GHz s' /\
  Switch.P1dB_input s = Switch.P1dB_input s' /\
  Switch.cost s = Switch.cost s'.

Definition att_same_but_name (t t' : Attenuator.t) : Prop :=
  Attenuator.gain t = Attenuator.gain t' /\
  Attenuator.max_attenuation t = Attenuator.max_attenuation t' /\
  Attenuator.P1dB_input t = Attenuator.P1dB_input t' /\
  Attenuator.cost t = Attenuator.cost t'.

Definition div_same_but_name (d d' : PowerDivider.t) : Prop :=
  PowerDivider.gain_1GHz d = PowerDivider.gain_1GHz d' /\
  PowerDivider.gain_20GHz d = PowerDivider.gain_20GHz d' /\
  PowerDivider.cost d = PowerDivider.cost d'.

(** Two combinations on which the loop body reads the same numbers. *)
Definition alike_in_numbers (c c' : Combination) : Prop :=
  feasible c = feasible c' /\ cost_of c = cost_of c'.

(** Two states with the same [min_cost], both with a text or both without. *)
Definition same_cost_state (st st' : State) : Prop :=
  fst st = fst st' /\ string_empty (snd st) = string_empty (snd st').

(** The example catalogs under other names. *)
Definition amplifiers_renamed : list Amplifier.t :=
  [ Amplifier.make "HMC-1" 19.0 15.0 18.0 14.0 12.0 10.5 100.0;
    Amplifier.make "" 18.0 14.0 17.0 13.0 11.0 9.5 120.0 ].

Definition switches_renamed : list Switch.t :=
  [ Switch.make "SPDT" 0.5 0.4 (-60.0) (-25.0) 15.0 50.0;
    Switch.make "SPDT" 0.6 0.5 (-58.0) (-22.0) 14.0 60.0 ].

Definition attenuators_renamed : list Attenuator.t :=
  [ Attenuator.make "3 dB" (-3.0) 10.0 20.0;
    Attenuator.make "6 dB" (-6.0) 15.0 20.0 ].

Definition dividers_renamed : list PowerDivider.t :=
  [ PowerDivider.make "Wilkinson" 0.0 0.0;
    PowerDivider.make "Resistive" 0.0 0.0 ].

(** A third amplifier, dearer than Amp-A. *)
Definition Amp_C : Amplifier.t := Amplifier.make "Amp-C" 20.0 15.0 18.0 14.0 12.0 10.5 130.0.

(** Amp-A with a compression point at 1 GHz that is not a number. *)
Definition Amp_nan_P1dB : Amplifier.t :=
  Amplifier.make "Amp-A" 19.0 15.0 18.0 14.0 nan 10.5 100.0.

(** ** Order facts on doubles

    They are read off the specification of the comparison on [spec_float],
    to which the primitive comparisons are tied by the library. *)

Section SpecOrder.

(** Splits the comparison of two finite numbers of one sign into the
    comparison of their exponents, then of their mantissas. *)
Ltac order_cases :=
  repeat match goal with
  | |- context [Z.compare ?x ?y] => destruct (Z.compare_spec x y)
  | H : context [Z.compare ?x ?y] |- _ => destruct (Z.compare_spec x y)
  end;
  change (Pos.compare_cont Eq) with Pos.compare in *;
  repeat match goal with
  | |- context [Pos.compare ?x ?y] => destruct (Pos.compare_spec x y)
  | H : context [Pos.compare ?x ?y] |- _ => destruct (Pos.compare_spec x y)
  end;
  simpl in *; try subst; try lia; try discriminate; try reflexivity.

Ltac by_cases3 a b c :=
  destruct a as [[]|[]| |[] ? ?], b as [[]|[]| |[] ? ?], c as [[]|[]| |[] ? ?];
  simpl; try discriminate; try reflexivity.

Ltac by_cases2 a b :=
  destruct a as [[]|[]| |[] ? ?], b as [[]|[]| |[] ? ?];
  simpl; try discriminate; try reflexivity.

Lemma SFltb_trans (a b c : spec_float) :
  SFltb a b = true -> SFltb b c = true -> SFltb a c = true.
Proof.
  unfold SFltb. by_cases3 a b c; intros; order_cases.
Qed.

Lemma SFltb_irrefl (a : spec_float) : SFltb a a = false.
Proof.
  unfold SFltb. destruct a as [[]|[]| |[] m e]; simpl; try reflexivity;
    rewrite Z.compare_refl; change (Pos.compare_cont Eq) with Pos.compare;
    rewrite Pos.compare_refl; reflexivity.
Qed.

(** Two numbers that compare equal stand in the same relation to a third. *)
Lemma SFeqb_ltb_l (a b c : spec_float) :
  SFeqb a b = true -> SFltb b c = true -> SFltb a c = true.
Proof.
  unfold SFeqb, SFltb. by_cases3 a b c; intros; order_cases.
Qed.

(** [<] holds between numbers only: neither side is NaN. *)
Lemma SFltb_not_nan (a b : spec_float) :
  SFltb a b = true -> SFeqb a a = true /\ SFeqb b b = true.
Proof.
  unfold SFeqb, SFltb. by_cases2 a b; intros; split; try reflexivity;
    rewrite Z.compare_refl; change (Pos.compare_cont Eq) with Pos.compare;
    rewrite Pos.compare_refl; reflexivity.
Qed.

(** On numbers the order is total: what is not below is at or above. *)
Lemma SFltb_false_leb (a b : spec_float) :
  SFltb a b = false -> SFeqb a a = true -> SFeqb b b = true -> SFleb b a = true.
Proof.
  unfold SFeqb, SFltb, SFleb. by_cases2 a b; intros; order_cases.
Qed.

Lemma SFeqb_ltb_false (a b : spec_float) :
  SFeqb a b = true -> SFltb a b = false.
Proof.
  unfold SFeqb, SFltb. by_cases2 a b; intros; order_cases.
Qed.

Lemma SFltb_leb_trans (a b c : spec_float) :
  SFltb a b = true -> SFleb b c = true -> SFltb a c = true.
Proof.
  unfold SFltb, SFleb. by_cases3 a b c; intros; order_cases.
Qed.

(** Only NaN differs from itself. *)
Lemma SFeqb_refl_false (a : spec_float) : SFeqb a a = false -> a = S754_nan.
Proof.
  unfold SFeqb. destruct a as [[]|[]| |[] m e]; simpl; try discriminate;
    try reflexivity;
    rewrite Z.compare_refl; change (Pos.compare_cont Eq) with Pos.compare;
    rewrite Pos.compare_refl; discriminate.
Qed.

(** Adding +0 may turn -0 into +0 and changes nothing else: the sum compares
    as the other term does. *)
Lemma SFadd_zero_r_compare (x y : spec_float) :
  SFcompare (SF64add x (S754_zero false)) y = SFcompare x y /\
  SFcompare y (SF64add x (S754_zero false)) = SFcompare y x.
Proof.
  destruct x as [[]|[]| |[] m e], y as [[]|[]| |[] m' e']; split; reflexivity.
Qed.

Lemma SFadd_zero_l_compare (x y : spec_float) :
  SFcompare (SF64add (S754_zero false) x) y = SFcompare x y /\
  SFcompare y (SF64add (S754_zero false) x) = SFcompare y x.
Proof.
  destruct x as [[]|[]| |[] m e], y as [[]|[]| |[] m' e']; split; reflexivity.
Qed.

Lemma SFleb_antisym_eqb (a b : spec_float) :
  SFleb a b = true -> SFleb b a = true -> SFeqb a b = true.
Proof.
  unfold SFleb, SFeqb. by_cases2 a b; intros; order_cases.
Qed.

Lemma SFadd_nan_r (x : spec_float) : SF64add x S754_nan = S754_nan.
Proof. destruct x as [[]|[]| |[] m e]; reflexivity. Qed.

End SpecOrder.

Section DoubleOrder.

Lemma double_lt_trans (a b c : double) :
  (a <? b) = true -> (b <? c) = true -> (a <? c) = true.
Proof. rewrite !ltb_spec. apply SFltb_trans. Qed.

Lemma double_lt_irrefl (a : double) : (a <? a) = false.
Proof. rewrite ltb_spec. apply SFltb_irrefl. Qed.

Lemma double_eq_lt_l (a b c : double) :
  (a =? b) = true -> (b <? c) = true -> (a <? c) = true.
Proof. rewrite eqb_spec, !ltb_spec. apply SFeqb_ltb_l. Qed.

Lemma double_lt_not_nan (a b : double) :
  (a <? b) = true -> not_nan a = true /\ not_nan b = true.
Proof. unfold not_nan. rewrite ltb_spec, !eqb_spec. apply SFltb_not_nan. Qed.

Lemma double_lt_false_le (a b : double) :
  (a <? b) = false -> not_nan a = true -> not_nan b = true -> (b <=? a) = true.
Proof.
  unfold not_nan. rewrite ltb_spec, leb_spec, !eqb_spec.
  apply SFltb_false_leb.
Qed.

(** A cost that is not below the incumbent is neither below nor equal to a
    cost that is: the step that keeps the running minimum a minimum. *)
Lemma double_lt_false_below (a c m : double) :
  (a <? m) = false -> (c <? m) = true -> (a <? c) = false /\ (a =? c) = false.
Proof.
  intros Ham Hcm. split.
  - destruct (a <? c) eqn:E; [|reflexivity].
    rewrite (double_lt_trans _ _ _ E Hcm) in Ham. discriminate.
  - destruct (a =? c) eqn:E; [|reflexivity].
    rewrite (double_eq_lt_l _ _ _ E Hcm) in Ham. discriminate.
Qed.

Lemma double_eq_lt_false (a b : double) : (a =? b) = true -> (a <? b) = false.
Proof. rewrite eqb_spec, ltb_spec. apply SFeqb_ltb_false. Qed.

Lemma double_lt_le_trans (a b c : double) :
  (a <? b) = true -> (b <=? c) = true -> (a <? c) = true.
Proof. rewrite !ltb_spec, leb_spec. apply SFltb_leb_trans. Qed.

Lemma double_lt_asym (a b : double) : (a <? b) = true -> (b <? a) = false.
Proof.
  intros H. destruct (b <? a) eqn:E; [|reflexivity].
  rewrite <- (double_lt_irrefl a). symmetry. exact (double_lt_trans _ _ _ H E).
Qed.

Lemma double_le_antisym_eq (a b : double) :
  (a <=? b) = true -> (b <=? a) = true -> (a =? b) = true.
Proof. rewrite !leb_spec, eqb_spec. apply SFleb_antisym_eqb. Qed.

Lemma Prim2SF_zero : Prim2SF 0 = S754_zero false.
Proof. vm_compute. reflexivity. Qed.

(** A sum with +0 compares as the other term does. *)
Lemma double_add_zero_r (x y : double) :
  (x + 0 <? y) = (x <? y) /\ (y <? x + 0) = (y <? x) /\
  (x + 0 <=? y) = (x <=? y) /\ (y <=? x + 0) = (y <=? x) /\
  (x + 0 =? y) = (x =? y).
Proof.
  rewrite !ltb_spec, !leb_spec, !eqb_spec, add_spec, Prim2SF_zero.
  unfold SFltb, SFleb, SFeqb.
  destruct (SFadd_zero_r_compare (Prim2SF x) (Prim2SF y)) as [-> ->].
  repeat split.
Qed.

Lemma double_add_zero_l (x y : double) :
  (0 + x <? y) = (x <? y) /\ (y <? 0 + x) = (y <? x) /\
  (0 + x <=? y) = (x <=? y) /\ (y <=? 0 + x) = (y <=? x) /\
  (0 + x =? y) = (x =? y).
Proof.
  rewrite !ltb_spec, !leb_spec, !eqb_spec, add_spec, Prim2SF_zero.
  unfold SFltb, SFleb, SFeqb.
  destruct (SFadd_zero_l_compare (Prim2SF x) (Prim2SF y)) as [-> ->].
  repeat split.
Qed.

(** NaN: the one double that differs from itself.  It is absorbing for the
    sum and the negation, and every comparison with it is false. *)
Lemma double_nan_spec (x : double) : not_nan x = false -> Prim2SF x = S754_nan.
Proof. unfold not_nan. rewrite eqb_spec. apply SFeqb_refl_false. Qed.

Lemma double_nan_add_l (x y : double) : not_nan x = false -> not_nan (x + y) = false.
Proof.
  intros H. apply double_nan_spec in H. unfold not_nan.
  rewrite eqb_spec, add_spec, H. reflexivity.
Qed.

Lemma double_nan_add_r (x y : double) : not_nan y = false -> not_nan (x + y) = false.
Proof.
  intros H. apply double_nan_spec in H. unfold not_nan.
  rewrite eqb_spec, add_spec, H, SFadd_nan_r. reflexivity.
Qed.

Lemma double_nan_opp (x : double) : not_nan x = false -> not_nan (- x) = false.
Proof.
  intros H. apply double_nan_spec in H. unfold not_nan.
  rewrite eqb_spec, opp_spec, H. reflexivity.
Qed.

Lemma double_nan_compare (x y : double) :
  not_nan x = false ->
  (x <? y) = false /\ (y <? x) = false /\ (x <=? y) = false /\ (y <=? x) = false.
Proof.
  intros H. apply double_nan_spec in H.
  rewrite !ltb_spec, !leb_spec, H. unfold SFltb, SFleb.
  destruct (Prim2SF y); repeat split.
Qed.

End DoubleOrder.

(** ** The loops as one pass over the product *)

Section Loops.

Context {A B St : Type}.

Lemma fold_left_flat_map (f : St -> B -> St) (g : A -> list B) (l : list A) (s : St) :
  fold_left f (flat_map g l) s = fold_left (fun s x => fold_left f (g x) s) l s.
Proof.
  revert s. induction l as [|x l IH]; intros s; simpl; [reflexivity|].
  rewrite fold_left_app. apply IH.
Qed.

Lemma fold_left_map (f : St -> B -> St) (g : A -> B) (l : list A) (s : St) :
  fold_left f (map g l) s = fold_left (fun s x => f s (g x)) l s.
Proof.
  revert s. induction l as [|x l IH]; intros s; simpl; [reflexivity|]. apply IH.
Qed.

Lemma fold_left_ext (f g : St -> A -> St) (l : list A) (s : St) :
  (forall s x, f s x = g s x) -> fold_left f l s = fold_left g l s.
Proof.
  intros E. revert s. induction l as [|x l IH]; intros s; simpl; [reflexivity|].
  rewrite E. apply IH.
Qed.

End Loops.

Lemma search_product amps sws atts divs :
  search amps sws atts divs = fold_left visit (product amps sws atts divs) (DBL_MAX, "").
Proof.
  unfold search, product.
  rewrite fold_left_flat_map. apply fold_left_ext. intros st1 amp.
  rewrite fold_left_flat_map. apply fold_left_ext. intros st2 sw.
  rewrite fold_left_flat_map. apply fold_left_ext. intros st3 att.
  rewrite fold_left_map. reflexivity.
Qed.

Lemma visit_eq (st : State) (c : Combination) :
  visit st c =
  if feasible c && (cost_of c <? fst st) then (cost_of c, text_of c) else st.
Proof.
  destruct c as [[[amp sw] att] div], st as [min_cost best_combination].
  unfold visit, loop_body, feasible, cost_of, text_of. simpl.
  destruct (on_state_ok amp sw _), (off_state_ok sw), (attenuation_ok att);
    simpl; reflexivity.
Qed.

Lemma in_product amps sws atts divs amp sw att div :
  In (amp, sw, att, div) (product amps sws atts divs) <->
  In amp amps /\ In sw sws /\ In att atts /\ In div divs.
Proof.
  unfold product. rewrite in_flat_map. split.
  - intros (a & Ha & H). apply in_flat_map in H. destruct H as (s & Hs & H).
    apply in_flat_map in H. destruct H as (t & Ht & H).
    apply in_map_iff in H. destruct H as (d & E & Hd).
    inversion E; subst. auto.
  - intros (Ha & Hs & Ht & Hd). exists amp. split; [assumption|].
    apply in_flat_map. exists sw. split; [assumption|].
    apply in_flat_map. exists att. split; [assumption|].
    apply in_map_iff. exists div. auto.
Qed.

(** The order of [product]: the combinations of the first amplifier come
    before those of the others; for one amplifier, those of the first switch
    come first; then those of the first attenuator; then the dividers in
    their order. *)
Lemma product_order amp sw att div amps sws atts divs :
  product (amp :: amps) sws atts divs =
    product [amp] sws atts divs ++ product amps sws atts divs /\
  product [amp] (sw :: sws) atts divs =
    product [amp] [sw] atts divs ++ product [amp] sws atts divs /\
  product [amp] [sw] (att :: atts) divs =
    product [amp] [sw] [att] divs ++ product [amp] [sw] atts divs /\
  product [amp] [sw] [att] (div :: divs) =
    (amp, sw, att, div) :: product [amp] [sw] [att] divs.
Proof.
  unfold product. simpl. rewrite !app_nil_r. repeat split.
Qed.

(** ** The invariant of the pass *)

Lemma pass_spec (l : list Combination) :
  let st := fold_left visit l (DBL_MAX, "") in
  none_retained l st \/ exists pre c post, retained l st pre c post.
Proof.
  induction l as [|x l IH] using rev_ind; simpl.
  - left. split; [reflexivity|]. intros u [].
  - rewrite fold_left_app. simpl. rewrite visit_eq.
    destruct IH as [[E Hn]|(pre & c & post & El & Fc & E & Hmax & Hmin & Hpre)];
      simpl in E; rewrite E; simpl.
    + destruct (feasible x) eqn:Fx; simpl.
      * destruct (cost_of x <? DBL_MAX) eqn:Cx.
        -- right. exists l, x, []. repeat split; try assumption.
           ++ intros u Hu Fu. apply in_app_or in Hu. destruct Hu as [Hu|[<-|[]]].
              ** eapply double_lt_false_below; eauto.
              ** apply double_lt_irrefl.
           ++ intros u Hu Fu. eapply double_lt_false_below; eauto.
        -- left. split; [reflexivity|]. intros u Hu Fu.
           apply in_app_or in Hu. destruct Hu as [Hu|[<-|[]]]; auto.
      * left. split; [reflexivity|]. intros u Hu Fu.
        apply in_app_or in Hu. destruct Hu as [Hu|[<-|[]]]; [auto|congruence].
    + destruct (feasible x) eqn:Fx; simpl.
      * destruct (cost_of x <? cost_of c) eqn:Cx.
        -- right. exists l, x, []. repeat split; try assumption.
           ++ eapply double_lt_trans; eauto.
           ++ intros u Hu Fu. apply in_app_or in Hu. destruct Hu as [Hu|[<-|[]]].
              ** eapply double_lt_false_below; eauto.
              ** apply double_lt_irrefl.
           ++ intros u Hu Fu. eapply double_lt_false_below; eauto.
        -- right. exists pre, c, (post ++ [x]). repeat split; try assumption.
           ++ rewrite El, <- app_assoc. reflexivity.
           ++ intros u Hu Fu. apply in_app_or in Hu. destruct Hu as [Hu|[<-|[]]]; auto.
      * right. exists pre, c, (post ++ [x]). repeat split; try assumption.
        -- rewrite El, <- app_assoc. reflexivity.
        -- intros u Hu Fu. apply in_app_or in Hu.
           destruct Hu as [Hu|[<-|[]]]; [auto|congruence].
Qed.

Lemma text_of_not_empty (c : Combination) : string_empty (text_of c) = false.
Proof. destruct c as [[[amp sw] att] div]. reflexivity. Qed.

(** The two possible outputs, with what the pass retained. *)
Lemma output_spec amps sws atts divs :
  let l := product amps sws atts divs in
  let st := search amps sws atts divs in
  (none_retained l st /\
   printBestConfiguration amps sws atts divs = no_valid_message) \/
  (exists pre c post, retained l st pre c post /\
   printBestConfiguration amps sws atts divs = best_message (text_of c) (cost_of c)).
Proof.
  simpl. unfold printBestConfiguration. rewrite search_product.
  destruct (pass_spec (product amps sws atts divs)) as [Hn|(pre & c & post & Hr)].
  - left. split; [assumption|]. destruct Hn as [-> _]. reflexivity.
  - right. exists pre, c, post. split; [assumption|].
    destruct Hr as (_ & _ & -> & _). rewrite text_of_not_empty. reflexivity.
Qed.

Lemma best_message_inv amps sws atts divs b m :
  printBestConfiguration amps sws atts divs = best_message b m ->
  exists pre c post,
    retained (product amps sws atts divs) (search amps sws atts divs) pre c post /\
    b = text_of c /\ m = cost_of c.
Proof.
  intros H.
  destruct (output_spec amps sws atts divs) as [[_ E]|(pre & c & post & Hr & E)];
    rewrite E in H.
  - discriminate H.
  - injection H as <- <-. exists pre, c, post. auto.
Qed.

Lemma reported_below_max amps sws atts divs b m :
  printBestConfiguration amps sws atts divs = best_message b m ->
  exists c, In c (product amps sws atts divs) /\ feasible c = true /\
    b = text_of c /\ m = cost_of c /\ (cost_of c <? DBL_MAX) = true.
Proof.
  intros H. apply best_message_inv in H.
  destruct H as (pre & c & post & (El & Fc & _ & Hmax & _) & -> & ->).
  exists c. repeat split; try assumption. rewrite El. apply in_elt.
Qed.

Lemma nothing_below_max_no_report amps sws atts divs :
  (forall c, In c (product amps sws atts divs) -> feasible c = true ->
     (cost_of c <? DBL_MAX) = false) ->
  printBestConfiguration amps sws atts divs = no_valid_message.
Proof.
  intros Hall.
  destruct (output_spec amps sws atts divs) as [[_ E]|(pre & c & post & Hr & E)];
    [exact E|].
  destruct (reported_below_max _ _ _ _ _ _ E) as (c' & Hin & Fc & _ & _ & Hlt).
  rewrite (Hall c' Hin Fc) in Hlt. discriminate.
Qed.

(** ** Minimality of the reported configuration *)

(** C1, as amended: when a best configuration is reported, it is a feasible
    combination of the Cartesian product, no feasible combination of the
    product costs strictly less, and its total cost is less than or equal to
    the total cost of every feasible combination whose total cost is not
    NaN. *)
Theorem best_is_feasible_minimum amps sws atts divs b m :
  printBestConfiguration amps sws atts divs = best_message b m ->
  exists c,
    In c (product amps sws atts divs) /\ feasible c = true /\
    b = text_of c /\ m = cost_of c /\
    forall u, In u (product amps sws atts divs) -> feasible u = true ->
      (cost_of u <? m) = false /\
      (not_nan (cost_of u) = true -> (m <=? cost_of u) = true).
Proof.
  intros H. apply best_message_inv in H.
  destruct H as (pre & c & post & (El & Fc & _ & Hmax & Hmin & _) & -> & ->).
  exists c. repeat split; try assumption.
  - rewrite El. apply in_elt.
  - auto.
  - intros Hu. apply double_lt_false_le; auto.
    apply (double_lt_not_nan _ _ Hmax).
Qed.

Lemma best_is_feasible_minimum_witness :
  printBestConfiguration amplifiers switches attenuators dividers =
    best_message golden_text 150 /\
  exists c,
    In c (product amplifiers switches attenuators dividers) /\ feasible c = true /\
    golden_text = text_of c /\ 150 = cost_of c /\
    forall u, In u (product amplifiers switches attenuators dividers) ->
      feasible u = true ->
      (cost_of u <? 150) = false /\
      (not_nan (cost_of u) = true -> (150 <=? cost_of u) = true).
Proof.
  split.
  - vm_compute. reflexivity.
  - apply (best_is_feasible_minimum amplifiers switches attenuators dividers).
    vm_compute. reflexivity.
Defined.

(** C1, as stated, fails when a feasible combination has a NaN cost: with
    Amp-A listed a second time at cost NaN, the reported cost 150 is not less
    than or equal to the cost of the feasible combination built on the
    second entry. *)
Lemma minimum_not_le_nan_cost :
  printBestConfiguration [Amp_A; Amp_nan_cost] switches attenuators dividers =
    best_message golden_text 150 /\
  In (Amp_nan_cost, Switch_1, Attenuator_2, Divider_1)
    (product [Amp_A; Amp_nan_cost] switches attenuators dividers) /\
  feasible (Amp_nan_cost, Switch_1, Attenuator_2, Divider_1) = true /\
  (150 <=? cost_of (Amp_nan_cost, Switch_1, Attenuator_2, Divider_1)) = false.
Proof.
  repeat split; try (vm_compute; reflexivity).
  apply in_product. simpl. auto 10.
Qed.

(** ** Ties *)

(** A combination whose cost equals the incumbent's leaves the state as it is. *)
Lemma equal_cost_keeps_incumbent amp sw att div min_cost best_combination :
  (total_cost (locals amp sw att div) =? min_cost) = true ->
  loop_body amp sw att div (min_cost, best_combination) = (min_cost, best_combination).
Proof.
  intros E. apply double_eq_lt_false in E.
  change (visit (min_cost, best_combination) (amp, sw, att, div) =
          (min_cost, best_combination)).
  rewrite visit_eq.
  change (cost_of (amp, sw, att, div) <? fst (min_cost, best_combination))
    with (total_cost (locals amp sw att div) <? min_cost).
  rewrite E, andb_false_r. reflexivity.
Qed.

(** C3, as amended: the loops visit the combinations in the order of
    [product] (amplifier outermost, then switch, then attenuator, power
    divider innermost).  When some feasible combination costs strictly less
    than the largest finite double, the combination [c] that is reported is
    the first, in this order, of the feasible combinations of minimal cost:
    no feasible combination costs less, and no feasible combination visited
    before [c] has a cost equal to that of [c].  When none does, nothing is
    reported.  A combination whose cost equals [min_cost] never replaces the
    incumbent. *)
Theorem first_minimum_below_max_wins amps sws atts divs :
  search amps sws atts divs =
    fold_left visit (product amps sws atts divs) (DBL_MAX, "") /\
  (((forall u, In u (product amps sws atts divs) -> feasible u = true ->
       (cost_of u <? DBL_MAX) = false) /\
    printBestConfiguration amps sws atts divs = no_valid_message) \/
   (exists pre c post,
      product amps sws atts divs = pre ++ c :: post /\
      feasible c = true /\ (cost_of c <? DBL_MAX) = true /\
      search amps sws atts divs = (cost_of c, text_of c) /\
      printBestConfiguration amps sws atts divs = best_message (text_of c) (cost_of c) /\
      (forall u, In u (product amps sws atts divs) -> feasible u = true ->
         (cost_of u <? cost_of c) = false) /\
      (forall u, In u pre -> feasible u = true -> (cost_of u =? cost_of c) = false))) /\
  (forall amp sw att div min_cost best_combination,
     (cost_of (amp, sw, att, div) =? min_cost) = true ->
     loop_body amp sw att div (min_cost, best_combination) =
       (min_cost, best_combination)).
Proof.
  split; [apply search_product|]. split.
  - destruct (output_spec amps sws atts divs)
      as [[[_ Hn] E]|(pre & c & post & (El & Fc & Est & Hmax & Hmin & Hpre) & E)].
    + left. split; assumption.
    + right. exists pre, c, post. auto 10.
  - intros amp sw att div min_cost bc E. apply equal_cost_keeps_incumbent. exact E.
Qed.

(** C3, as stated, fails when the minimal cost is not below the largest
    finite double: with Amp-A at that cost, the four feasible combinations
    tie at it and none of them is reported. *)
Lemma tie_at_max_cost_reports_none :
  map cost_of (filter feasible (product [Amp_max_cost] switches attenuators dividers)) =
    [DBL_MAX; DBL_MAX; DBL_MAX; DBL_MAX] /\
  printBestConfiguration [Amp_max_cost] switches attenuators dividers = no_valid_message.
Proof. split; vm_compute; reflexivity. Qed.

(** Two entries of equal cost: the one listed first is reported, whichever
    catalog the tie is in. *)
Example tie_between_dividers :
  printBestConfiguration [Amp_A] [Switch_1] [Attenuator_2]
    [PowerDivider.make "Divider-2" 0.0 0.0; Divider_1] =
  best_message
    "Amplifier: Amp-A, Switch: Switch-1, Attenuator: Attenuator-2, Power Divider: Divider-2"
    150.
Proof. vm_compute. reflexivity. Qed.

Example tie_in_every_catalog :
  printBestConfiguration
    [Amp_A; Amplifier.make "Amp-C" 19.0 15.0 18.0 14.0 12.0 10.5 100.0]
    [Switch_1; Switch.make "Switch-3" 0.5 0.4 (-60.0) (-25.0) 15.0 50.0]
    [Attenuator_2; Attenuator.make "Attenuator-3" (-6.0) 15.0 20.0]
    [Divider_1; PowerDivider.make "Divider-3" 0.0 0.0] =
  best_message golden_text 150.
Proof. vm_compute. reflexivity. Qed.

(** ** The initial [min_cost] *)

(** C10: a configuration is reported if and only if some feasible combination
    has a total cost strictly below the largest finite double; otherwise the
    fixed message is written.  A reported cost is strictly below that maximum,
    hence not NaN: a feasible combination whose cost is NaN, or at or above
    the maximum, is never the one reported. *)
Theorem reported_iff_below_max amps sws atts divs :
  ((exists b m, printBestConfiguration amps sws atts divs = best_message b m) <->
   (exists c, In c (product amps sws atts divs) /\ feasible c = true /\
      (cost_of c <? DBL_MAX) = true)) /\
  ((forall c, In c (product amps sws atts divs) -> feasible c = true ->
      (cost_of c <? DBL_MAX) = false) ->
   printBestConfiguration amps sws atts divs = no_valid_message) /\
  (forall b m, printBestConfiguration amps sws atts divs = best_message b m ->
     (m <? DBL_MAX) = true /\ not_nan m = true).
Proof.
  split; [split|split].
  - intros (b & m & H).
    destruct (reported_below_max _ _ _ _ _ _ H) as (c & Hin & Fc & _ & _ & Hlt).
    exists c. auto.
  - intros (c & Hin & Fc & Hlt).
    destruct (output_spec amps sws atts divs) as [[[_ Hn] _]|(pre & c' & post & _ & E)].
    + rewrite (Hn c Hin Fc) in Hlt. discriminate.
    + eauto.
  - apply nothing_below_max_no_report.
  - intros b m H.
    destruct (reported_below_max _ _ _ _ _ _ H) as (c & _ & _ & _ & -> & Hlt).
    split; [assumption|]. apply (double_lt_not_nan _ _ Hlt).
Qed.

(** Feasible combinations exist, and yet the fixed message is written: every
    feasible cost is NaN, or is the largest finite double. *)
Example nan_cost_never_reported :
  feasible (Amp_nan_cost, Switch_1, Attenuator_2, Divider_1) = true /\
  printBestConfiguration [Amp_nan_cost] switches attenuators dividers = no_valid_message.
Proof. split; vm_compute; reflexivity. Qed.

Example max_cost_never_reported :
  feasible (Amp_max_cost, Switch_1, Attenuator_2, Divider_1) = true /\
  cost_of (Amp_max_cost, Switch_1, Attenuator_2, Divider_1) = DBL_MAX /\
  printBestConfiguration [Amp_max_cost] switches attenuators dividers = no_valid_message.
Proof. repeat split; vm_compute; reflexivity. Qed.

(** ** The feasibility gate *)

Lemma loop_body_feasible amp sw att div (st : State) :
  loop_body amp sw att div st =
  if feasible (amp, sw, att, div) then
    if total_cost (locals amp sw att div) <? fst st then
      (total_cost (locals amp sw att div), combination_text amp sw att div)
    else st
  else st.
Proof.
  change (loop_body amp sw att div st) with (visit st (amp, sw, att, div)).
  rewrite visit_eq. destruct (feasible (amp, sw, att, div)); reflexivity.
Qed.

(** C2: a combination reaches the cost comparison of the loop body if and only
    if the nine predicates hold; otherwise the loop body leaves the state
    unchanged.  The two leakage comparisons are strict: a combination whose
    switch leaks exactly -55 at 1 GHz, or exactly -20 at 20 GHz, is
    infeasible, and the double written -55.0001 passes the predicate at
    1 GHz, so that feasibility is then decided by the other eight. *)
Theorem feasible_iff_nine_predicates amp sw att div :
  (feasible (amp, sw, att, div) = true <-> nine_predicates amp sw att div) /\
  (forall st, loop_body amp sw att div st =
     if feasible (amp, sw, att, div) then
       if total_cost (locals amp sw att div) <? fst st then
         (total_cost (locals amp sw att div), combination_text amp sw att div)
       else st
     else st) /\
  feasible (amp, sw_with_leakage_1GHz sw (-55), att, div) = false /\
  feasible (amp, sw_with_leakage_20GHz sw (-20), att, div) = false /\
  (just_below_minus_55 <? -55) = true /\
  feasible (amp, sw_with_leakage_1GHz sw just_below_minus_55, att, div) =
    on_state_ok amp sw (locals amp sw att div) &&
    (Switch.leakage_20GHz sw <? -20) && attenuation_ok att.
Proof.
  split; [|split; [|split; [|split; [|split]]]].
  - unfold feasible, nine_predicates, on_state_ok, off_state_ok, attenuation_ok.
    cbv zeta. rewrite !andb_true_iff. tauto.
  - apply loop_body_feasible.
  - unfold feasible, off_state_ok. simpl.
    replace (-55 <? -55) with false by (vm_compute; reflexivity).
    rewrite andb_false_r. reflexivity.
  - unfold feasible, off_state_ok. simpl.
    replace (-20 <? -20) with false by (vm_compute; reflexivity).
    rewrite !andb_false_r. reflexivity.
  - vm_compute. reflexivity.
  - unfold feasible, off_state_ok. simpl.
    replace (just_below_minus_55 <? -55) with true by (vm_compute; reflexivity).
    reflexivity.
Qed.

(** The boundary on a combination of the example data, all else equal. *)
Example leakage_boundary :
  feasible (Amp_A, sw_with_leakage_1GHz Switch_1 (-55), Attenuator_2, Divider_1) = false /\
  feasible (Amp_A, sw_with_leakage_1GHz Switch_1 just_below_minus_55, Attenuator_2, Divider_1)
    = true.
Proof. split; vm_compute; reflexivity. Qed.

(** ** The derived metrics and the cost *)

(** C5: at each frequency the effective gains are the amplifier's gain plus the
    attenuator's gain plus the divider's gain, and the output powers are the
    input power, which is 0, plus the effective gains.  The switch enters none
    of them: they are the same for any other switch. *)
Theorem derived_metrics amp sw att div :
  let l := locals amp sw att div in
  input_power_dBm = 0 /\
  effective_gain_max_1GHz l =
    Amplifier.gain_max_1GHz amp + Attenuator.gain att + PowerDivider.gain_1GHz div /\
  effective_gain_max_20GHz l =
    Amplifier.gain_max_20GHz amp + Attenuator.gain att + PowerDivider.gain_20GHz div /\
  effective_gain_min_1GHz l =
    Amplifier.gain_min_1GHz amp + Attenuator.gain att + PowerDivider.gain_1GHz div /\
  effective_gain_min_20GHz l =
    Amplifier.gain_min_20GHz amp + Attenuator.gain att + PowerDivider.gain_20GHz div /\
  max_output_power_1GHz l = input_power_dBm + effective_gain_max_1GHz l /\
  max_output_power_20GHz l = input_power_dBm + effective_gain_max_20GHz l /\
  min_output_power_1GHz l = input_power_dBm + effective_gain_min_1GHz l /\
  min_output_power_20GHz l = input_power_dBm + effective_gain_min_20GHz l /\
  forall sw',
    let l' := locals amp sw' att div in
    effective_gain_max_1GHz l' = effective_gain_max_1GHz l /\
    effective_gain_max_20GHz l' = effective_gain_max_20GHz l /\
    effective_gain_min_1GHz l' = effective_gain_min_1GHz l /\
    effective_gain_min_20GHz l' = effective_gain_min_20GHz l /\
    max_output_power_1GHz l' = max_output_power_1GHz l /\
    max_output_power_20GHz l' = max_output_power_20GHz l /\
    min_output_power_1GHz l' = min_output_power_1GHz l /\
    min_output_power_20GHz l' = min_output_power_20GHz l.
Proof.
  cbv zeta. repeat split.
Qed.

(** C6: the total cost is the sum of the four costs, taken in this order,
    whether or not the combination is feasible; and feasibility looks at no
    cost: it is unchanged when the four costs are replaced by any others. *)
Theorem cost_and_feasibility_are_independent amp sw att div :
  total_cost (locals amp sw att div) =
    Amplifier.cost amp + Switch.cost sw + Attenuator.cost att + PowerDivider.cost div /\
  cost_of (amp, sw, att, div) =
    (if feasible (amp, sw, att, div)
     then Amplifier.cost amp + Switch.cost sw + Attenuator.cost att + PowerDivider.cost div
     else Amplifier.cost amp + Switch.cost sw + Attenuator.cost att + PowerDivider.cost div) /\
  forall ca cs ct cd,
    feasible (amp_with_cost amp ca, sw_with_cost sw cs, att_with_cost att ct,
              div_with_cost div cd) = feasible (amp, sw, att, div).
Proof.
  repeat split.
  destruct (feasible (amp, sw, att, div)); reflexivity.
Qed.

(** ** Termination and the two outputs *)

(** C4, as amended: the search is a total function of the four catalogs and
    writes one of two outputs.  It writes the fixed message exactly when no
    combination that satisfies the nine predicates costs strictly less than
    the largest finite double; this is the case when a catalog is empty and
    when no combination satisfies the nine predicates.  Otherwise it writes
    the header line followed by one line that names the four components of
    the selected combination, a feasible one that no feasible combination
    undercuts, and gives its total cost. *)
Theorem fixed_message_or_selected_configuration amps sws atts divs :
  (amps = [] \/ sws = [] \/ atts = [] \/ divs = [] ->
   printBestConfiguration amps sws atts divs = no_valid_message) /\
  ((forall c, In c (product amps sws atts divs) -> feasible c = false) ->
   printBestConfiguration amps sws atts divs = no_valid_message) /\
  (printBestConfiguration amps sws atts divs = no_valid_message <->
   (forall c, In c (product amps sws atts divs) -> feasible c = true ->
      (cost_of c <? DBL_MAX) = false)) /\
  ((exists c, In c (product amps sws atts divs) /\ feasible c = true /\
      (cost_of c <? DBL_MAX) = true) ->
   exists c, In c (product amps sws atts divs) /\ feasible c = true /\
     (cost_of c <? DBL_MAX) = true /\
     (forall u, In u (product amps sws atts divs) -> feasible u = true ->
        (cost_of u <? cost_of c) = false) /\
     search amps sws atts divs = (cost_of c, text_of c) /\
     printBestConfiguration amps sws atts divs =
       [Str "*******Best Configuration:*******"; Endl;
        Str (text_of c); Str " with total cost: $"; Dbl (cost_of c); Endl]) /\
  (printBestConfiguration amps sws atts divs = no_valid_message \/
   exists c, In c (product amps sws atts divs) /\ feasible c = true /\
     printBestConfiguration amps sws atts divs =
       [Str "*******Best Configuration:*******"; Endl;
        Str (text_of c); Str " with total cost: $"; Dbl (cost_of c); Endl]).
Proof.
  split; [|split; [|split; [|split]]].
  - intros Hempty. apply nothing_below_max_no_report.
    intros [[[amp sw] att] div] Hin _. apply in_product in Hin.
    destruct Hin as (Ha & Hs & Ht & Hd).
    destruct Hempty as [-> | [-> | [-> | ->]]]; contradiction.
  - intros Hall. apply nothing_below_max_no_report.
    intros c Hin Fc. rewrite (Hall c Hin) in Fc. discriminate.
  - split; [|apply nothing_below_max_no_report].
    intros E.
    destruct (output_spec amps sws atts divs) as [[[_ Hn] _]|(pre & c & post & _ & E')].
    + exact Hn.
    + rewrite E in E'. discriminate E'.
  - intros (c0 & Hin0 & F0 & L0).
    destruct (output_spec amps sws atts divs)
      as [[[_ Hn] _]|(pre & c & post & (El & Fc & Est & Hmax & Hmin & _) & E)].
    + rewrite (Hn c0 Hin0 F0) in L0. discriminate.
    + exists c. repeat split; try assumption. rewrite El. apply in_elt.
  - destruct (output_spec amps sws atts divs) as [[_ E]|(pre & c & post & Hr & E)].
    + left. exact E.
    + right. exists c. destruct Hr as (El & Fc & _).
      repeat split; try assumption. rewrite El. apply in_elt.
Qed.

(** C4, as stated, fails twice.  On a negative cost: Amp-A at cost -100 is
    reported, at total cost -50, and the fixed message is not written.  And
    on well-formed numbers: with Amp-A at the largest finite double as its
    cost, no catalog is empty, the one combination satisfies the nine
    predicates, no attribute is NaN and no cost is negative, and yet the
    fixed message is written. *)
Lemma negative_cost_reported_max_cost_not :
  ((Amplifier.cost Amp_negative_cost <? 0) = true /\
   printBestConfiguration [Amp_negative_cost] switches attenuators dividers =
     best_message golden_text (-50)) /\
  (feasible (Amp_max_cost, Switch_1, Attenuator_2, Divider_1) = true /\
   forallb not_nan (Amplifier.cost Amp_max_cost ::
     checked_fields (Amp_max_cost, Switch_1, Attenuator_2, Divider_1)) = true /\
   (0 <=? Amplifier.cost Amp_max_cost) = true /\
   (0 <=? Switch.cost Switch_1) = true /\
   printBestConfiguration [Amp_max_cost] [Switch_1] [Attenuator_2] [Divider_1] =
     no_valid_message).
Proof. repeat split; vm_compute; reflexivity. Qed.

Example empty_catalog_message :
  printBestConfiguration amplifiers switches [] dividers = no_valid_message.
Proof. vm_compute. reflexivity. Qed.

Example no_feasible_message :
  forallb (fun c => negb (feasible c)) (product [Amp_B] switches attenuators dividers) = true /\
  printBestConfiguration [Amp_B] switches attenuators dividers = no_valid_message.
Proof. split; vm_compute; reflexivity. Qed.

(** ** Fields the search does not read *)

Section Related.

Context {A A' B B' : Type}.

Lemma Forall2_flat_map (R : A -> A' -> Prop) (Q : B -> B' -> Prop)
    (f : A -> list B) (g : A' -> list B') (l : list A) (l' : list A') :
  Forall2 R l l' -> (forall x x', R x x' -> Forall2 Q (f x) (g x')) ->
  Forall2 Q (flat_map f l) (flat_map g l').
Proof.
  intros H Hfg. induction H as [|x x' l l' Hx _ IH]; simpl.
  - constructor.
  - apply Forall2_app; auto.
Qed.

Lemma Forall2_map (R : A -> A' -> Prop) (Q : B -> B' -> Prop)
    (f : A -> B) (g : A' -> B') (l : list A) (l' : list A') :
  Forall2 R l l' -> (forall x x', R x x' -> Q (f x) (g x')) ->
  Forall2 Q (map f l) (map g l').
Proof.
  intros H Hfg. induction H as [|x x' l l' Hx _ IH]; simpl; constructor; auto.
Qed.

End Related.

Lemma Forall2_eq_refl {A : Type} (l : list A) : Forall2 eq l l.
Proof. induction l; constructor; auto. Qed.

Lemma product_related Ra Rs Rt Rd amps amps' sws sws' atts atts' divs divs' :
  Forall2 Ra amps amps' -> Forall2 Rs sws sws' ->
  Forall2 Rt atts atts' -> Forall2 Rd divs divs' ->
  Forall2 (related Ra Rs Rt Rd)
    (product amps sws atts divs) (product amps' sws' atts' divs').
Proof.
  intros Ha Hs Ht Hd. unfold product.
  apply (Forall2_flat_map Ra); [assumption|]. intros amp amp' Hamp.
  apply (Forall2_flat_map Rs); [assumption|]. intros sw sw' Hsw.
  apply (Forall2_flat_map Rt); [assumption|]. intros att att' Hatt.
  apply (Forall2_map Rd); [assumption|]. intros div div' Hdiv.
  simpl. auto.
Qed.

Lemma pass_alike (l l' : list Combination) (st : State) :
  Forall2 alike l l' -> fold_left visit l st = fold_left visit l' st.
Proof.
  intros H. revert st. induction H as [|c c' l l' (Ef & Ec & Et) _ IH]; intros st; simpl.
  - reflexivity.
  - rewrite (visit_eq st c), (visit_eq st c'), Ef, Ec, Et. apply IH.
Qed.

Lemma run_alike amps amps' sws sws' atts atts' divs divs' :
  Forall2 alike (product amps sws atts divs) (product amps' sws' atts' divs') ->
  search amps sws atts divs = search amps' sws' atts' divs' /\
  printBestConfiguration amps sws atts divs =
    printBestConfiguration amps' sws' atts' divs'.
Proof.
  intros H.
  assert (E : search amps sws atts divs = search amps' sws' atts' divs').
  { rewrite !search_product. apply pass_alike. exact H. }
  split; [exact E|]. unfold printBestConfiguration. rewrite E. reflexivity.
Qed.

Lemma gain_min_alike c c' :
  related same_but_gain_min eq eq eq c c' -> alike c c'.
Proof.
  destruct c as [[[amp sw] att] div], c' as [[[amp' sw'] att'] div'].
  destruct amp, amp'. simpl.
  intros ((En & E1 & E2 & E3 & E4 & E5) & <- & <- & <-). simpl in *. subst.
  repeat split.
Qed.

Lemma P1dB_input_alike c c' :
  related eq sw_same_but_P1dB_input att_same_but_P1dB_input eq c c' -> alike c c'.
Proof.
  destruct c as [[[amp sw] att] div], c' as [[[amp' sw'] att'] div'].
  destruct sw, sw', att, att'. simpl.
  intros (<- & (Es & E1 & E2 & E3 & E4 & E5) & (Et & E6 & E7 & E8) & <-).
  simpl in *. subst. repeat split.
Qed.

(** C7: the amplifier's two minimum gains, and with them the two minimum
    output powers, influence nothing.  For two inputs that differ only in
    these fields of the amplifiers, the combinations visited are feasible or
    not alike, one after the other; the search ends in the same state; and
    the same output is written. *)
Theorem gain_min_noninterference amps amps' sws atts divs :
  Forall2 same_but_gain_min amps amps' ->
  Forall2 (fun c c' => feasible c = feasible c')
    (product amps sws atts divs) (product amps' sws atts divs) /\
  search amps sws atts divs = search amps' sws atts divs /\
  printBestConfiguration amps sws atts divs =
    printBestConfiguration amps' sws atts divs.
Proof.
  intros H.
  assert (Hp : Forall2 alike (product amps sws atts divs) (product amps' sws atts divs)).
  { apply (Forall2_impl alike gain_min_alike).
    apply product_related; [exact H | apply Forall2_eq_refl ..]. }
  split.
  - apply (Forall2_impl _ (fun c c' (Hc : alike c c') => proj1 Hc) Hp).
  - apply run_alike. exact Hp.
Qed.

Lemma gain_min_noninterference_witness :
  Forall2 same_but_gain_min amplifiers amplifiers_other_gain_min /\
  Forall2 (fun c c' => feasible c = feasible c')
    (product amplifiers switches attenuators dividers)
    (product amplifiers_other_gain_min switches attenuators dividers) /\
  search amplifiers switches attenuators dividers =
    search amplifiers_other_gain_min switches attenuators dividers /\
  printBestConfiguration amplifiers switches attenuators dividers =
    printBestConfiguration amplifiers_other_gain_min switches attenuators dividers.
Proof.
  split.
  - repeat constructor.
  - apply (gain_min_noninterference amplifiers amplifiers_other_gain_min).
    repeat constructor.
Defined.

(** C9: the [P1dB_input] fields of the switches and of the attenuators
    influence nothing.  For two inputs that differ only in these fields, the
    combinations visited are feasible or not alike, one after the other; the
    search ends in the same state; and the same output is written. *)
Theorem P1dB_input_noninterference amps sws sws' atts atts' divs :
  Forall2 sw_same_but_P1dB_input sws sws' ->
  Forall2 att_same_but_P1dB_input atts atts' ->
  Forall2 (fun c c' => feasible c = feasible c')
    (product amps sws atts divs) (product amps sws' atts' divs) /\
  search amps sws atts divs = search amps sws' atts' divs /\
  printBestConfiguration amps sws atts divs =
    printBestConfiguration amps sws' atts' divs.
Proof.
  intros Hs Ht.
  assert (Hp : Forall2 alike (product amps sws atts divs) (product amps sws' atts' divs)).
  { apply (Forall2_impl alike P1dB_input_alike).
    apply product_related; [apply Forall2_eq_refl | exact Hs | exact Ht
                           | apply Forall2_eq_refl]. }
  split.
  - apply (Forall2_impl _ (fun c c' (Hc : alike c c') => proj1 Hc) Hp).
  - apply run_alike. exact Hp.
Qed.

Lemma P1dB_input_noninterference_witness :
  Forall2 sw_same_but_P1dB_input switches switches_other_P1dB_input /\
  Forall2 att_same_but_P1dB_input attenuators attenuators_other_P1dB_input /\
  Forall2 (fun c c' => feasible c = feasible c')
    (product amplifiers switches attenuators dividers)
    (product amplifiers switches_other_P1dB_input attenuators_other_P1dB_input dividers) /\
  search amplifiers switches attenuators dividers =
    search amplifiers switches_other_P1dB_input attenuators_other_P1dB_input dividers /\
  printBestConfiguration amplifiers switches attenuators dividers =
    printBestConfiguration amplifiers switches_other_P1dB_input
      attenuators_other_P1dB_input dividers.
Proof.
  split; [|split].
  - repeat constructor.
  - repeat constructor.
  - apply (P1dB_input_noninterference amplifiers switches switches_other_P1dB_input
             attenuators attenuators_other_P1dB_input dividers);
      repeat constructor.
Defined.

(** ** The example data of [main] *)

(** C8: on the catalogs of [main] the program writes the header, then Amp-A,
    Switch-1, Attenuator-2 and Divider-1 with total cost 150, and returns 0.
    The product has 16 combinations, four of them feasible; the reported one
    is feasible and no feasible combination costs less than 150. *)
Theorem reference_scenario :
  main = (best_message golden_text 150, 0%Z) /\
  List.length (product amplifiers switches attenuators dividers) = 16%nat /\
  map text_of (filter feasible (product amplifiers switches attenuators dividers)) =
    [ golden_text;
      "Amplifier: Amp-A, Switch: Switch-1, Attenuator: Attenuator-2, Power Divider: Divider-2";
      "Amplifier: Amp-A, Switch: Switch-2, Attenuator: Attenuator-2, Power Divider: Divider-1";
      "Amplifier: Amp-A, Switch: Switch-2, Attenuator: Attenuator-2, Power Divider: Divider-2" ] /\
  In (Amp_A, Switch_1, Attenuator_2, Divider_1)
    (product amplifiers switches attenuators dividers) /\
  feasible (Amp_A, Switch_1, Attenuator_2, Divider_1) = true /\
  text_of (Amp_A, Switch_1, Attenuator_2, Divider_1) = golden_text /\
  cost_of (Amp_A, Switch_1, Attenuator_2, Divider_1) = 150 /\
  forall u, In u (product amplifiers switches attenuators dividers) ->
    feasible u = true -> (150 <=? cost_of u) = true.
Proof.
  repeat split; try (vm_compute; reflexivity).
  - apply in_product. simpl. auto 10.
  - intros u Hu Fu.
    assert (H : forallb (fun u => implb (feasible u) (150 <=? cost_of u))
                  (product amplifiers switches attenuators dividers) = true)
      by (vm_compute; reflexivity).
    rewrite forallb_forall in H. specialize (H u Hu). rewrite Fu in H. exact H.
Qed.

(** * Further properties of the program *)

(** ** The constructors without a cost *)

Ltac split_comparisons :=
  repeat match goal with
  | |- context [PrimFloat.leb ?a ?b] => destruct (PrimFloat.leb a b)
  | |- context [PrimFloat.ltb ?a ?b] => destruct (PrimFloat.ltb a b)
  end.

(** X1: an attenuator and a power divider built by their constructors cost
    0.0 each, and the total cost of a combination made with them stands to
    any double as the sum of the amplifier's and the switch's costs does:
    below, above, at most, at least, equal. *)
Theorem constructed_parts_cost_nothing amp sw n g max_att p1dB n' g_1 g_20 y :
  let att := Attenuator.make n g max_att p1dB in
  let div := PowerDivider.make n' g_1 g_20 in
  let total := total_cost (locals amp sw att div) in
  let two := Amplifier.cost amp + Switch.cost sw in
  getCost att = 0 /\ getCost div = 0 /\
  (total <? y) = (two <? y) /\ (y <? total) = (y <? two) /\
  (total <=? y) = (two <=? y) /\ (y <=? total) = (y <=? two) /\
  (total =? y) = (two =? y).
Proof.
  cbv zeta. split; [reflexivity|]. split; [reflexivity|].
  change (total_cost (locals amp sw (Attenuator.make n g max_att p1dB)
                        (PowerDivider.make n' g_1 g_20)))
    with (Amplifier.cost amp + Switch.cost sw + 0 + 0).
  destruct (double_add_zero_r (Amplifier.cost amp + Switch.cost sw + 0) y)
    as (-> & -> & -> & -> & ->).
  destruct (double_add_zero_r (Amplifier.cost amp + Switch.cost sw) y)
    as (-> & -> & -> & -> & ->).
  repeat split.
Qed.

(** ** The shape of the feasibility check *)

Lemma feasible_decompose amp sw att div :
  feasible (amp, sw, att, div) =
  power_ok amp att div && amp_ok amp && sw_ok sw && attenuation_ok att.
Proof.
  unfold feasible, on_state_ok, power_ok, amp_ok, sw_ok, off_state_ok, attenuation_ok.
  cbn [locals max_output_power_1GHz max_output_power_20GHz].
  unfold input_power_dBm.
  destruct (double_add_zero_l
    (Amplifier.gain_max_1GHz amp + Attenuator.gain att + PowerDivider.gain_1GHz div)
    (Amplifier.P1dB_1GHz amp)) as (_ & _ & -> & _).
  destruct (double_add_zero_l
    (Amplifier.gain_max_20GHz amp + Attenuator.gain att + PowerDivider.gain_20GHz div)
    (Amplifier.P1dB_20GHz amp)) as (_ & _ & -> & _).
  split_comparisons; reflexivity.
Qed.

(** X2: with the input power at 0, a combination is feasible exactly when the
    maximum gains of amplifier, attenuator and divider stay within the
    amplifier's compression points and each of amplifier, switch and
    attenuator passes the checks on its own fields.  Hence the switch of a
    feasible combination can be exchanged for the switch of any other
    feasible combination. *)
Theorem feasibility_splits amp sw att div :
  feasible (amp, sw, att, div) =
    power_ok amp att div && amp_ok amp && sw_ok sw && attenuation_ok att /\
  forall amp' sw' att' div',
    feasible (amp, sw, att, div) = true ->
    feasible (amp', sw', att', div') = true ->
    feasible (amp, sw', att, div) = true /\ feasible (amp', sw, att', div') = true.
Proof.
  split; [apply feasible_decompose|].
  intros amp' sw' att' div'. rewrite !feasible_decompose, !andb_true_iff. tauto.
Qed.

(** ** NaN in a field the checks read *)

Ltac absorb_false := repeat (rewrite ?andb_false_r; cbn [andb]); reflexivity.

Lemma nan_field_infeasible (c : Combination) (x : double) :
  In x (checked_fields c) -> not_nan x = false -> feasible c = false.
Proof.
  destruct c as [[[amp sw] att] div]. intros Hin Hx.
  rewrite feasible_decompose.
  unfold power_ok, amp_ok, sw_ok, off_state_ok, attenuation_ok.
  cbn [checked_fields In] in Hin.
  repeat (destruct Hin as [<- | Hin]); [ .. | contradiction].
  - destruct (double_nan_compare
      (Amplifier.gain_max_1GHz amp + Attenuator.gain att + PowerDivider.gain_1GHz div)
      (Amplifier.P1dB_1GHz amp)) as (_ & _ & -> & _); [|absorb_false].
    apply double_nan_add_l, double_nan_add_l, Hx.
  - destruct (double_nan_compare
      (Amplifier.gain_max_20GHz amp + Attenuator.gain att + PowerDivider.gain_20GHz div)
      (Amplifier.P1dB_20GHz amp)) as (_ & _ & -> & _); [|absorb_false].
    apply double_nan_add_l, double_nan_add_l, Hx.
  - destruct (double_nan_compare (Amplifier.P1dB_1GHz amp) 12 Hx) as (_ & _ & _ & ->).
    absorb_false.
  - destruct (double_nan_compare (Amplifier.P1dB_20GHz amp) 10.5 Hx) as (_ & _ & _ & ->).
    absorb_false.
  - destruct (double_nan_compare (Switch.gain_1GHz_typ sw) (-1.0) Hx) as (_ & _ & _ & ->).
    absorb_false.
  - destruct (double_nan_compare (Switch.gain_20GHz_typ sw) (-2.0) Hx) as (_ & _ & _ & ->).
    absorb_false.
  - destruct (double_nan_compare (Switch.leakage_1GHz sw) (-55) Hx) as (-> & _).
    absorb_false.
  - destruct (double_nan_compare (Switch.leakage_20GHz sw) (-20) Hx) as (-> & _).
    absorb_false.
  - destruct (double_nan_compare (- Attenuator.gain att) (Attenuator.max_attenuation att))
      as (_ & _ & -> & _); [|absorb_false].
    apply double_nan_opp, Hx.
  - destruct (double_nan_compare (Attenuator.max_attenuation att) (- Attenuator.gain att) Hx)
      as (_ & _ & _ & ->).
    absorb_false.
  - destruct (double_nan_compare
      (Amplifier.gain_max_1GHz amp + Attenuator.gain att + PowerDivider.gain_1GHz div)
      (Amplifier.P1dB_1GHz amp)) as (_ & _ & -> & _); [|absorb_false].
    apply double_nan_add_r, Hx.
  - destruct (double_nan_compare
      (Amplifier.gain_max_20GHz amp + Attenuator.gain att + PowerDivider.gain_20GHz div)
      (Amplifier.P1dB_20GHz amp)) as (_ & _ & -> & _); [|absorb_false].
    apply double_nan_add_r, Hx.
Qed.

(** X3: a NaN in any of the twelve fields the checks read makes the
    combination infeasible, and the loop body then leaves [min_cost] and
    [best_combination] as they are. *)
Theorem nan_field_is_skipped amp sw att div x st :
  In x (checked_fields (amp, sw, att, div)) -> not_nan x = false ->
  feasible (amp, sw, att, div) = false /\ loop_body amp sw att div st = st.
Proof.
  intros Hin Hx. pose proof (nan_field_infeasible _ _ Hin Hx) as F.
  split; [exact F|]. rewrite loop_body_feasible, F. reflexivity.
Qed.

Lemma nan_field_is_skipped_witness :
  In nan (checked_fields (Amp_nan_P1dB, Switch_1, Attenuator_2, Divider_1)) /\
  not_nan nan = false /\
  feasible (Amp_nan_P1dB, Switch_1, Attenuator_2, Divider_1) = false /\
  loop_body Amp_nan_P1dB Switch_1 Attenuator_2 Divider_1 (DBL_MAX, "") = (DBL_MAX, "").
Proof.
  split; [simpl; auto|]. split; [vm_compute; reflexivity|].
  apply (nan_field_is_skipped Amp_nan_P1dB Switch_1 Attenuator_2 Divider_1 nan).
  - simpl. auto.
  - vm_compute. reflexivity.
Defined.

(** ** Splitting the amplifier catalog *)

(** The cost a pass ends with, started from the initial state, is a number
    and is not above the initial [min_cost]. *)
Lemma pass_min_cost (l : list Combination) :
  not_nan (fst (fold_left visit l (DBL_MAX, ""))) = true /\
  (DBL_MAX <? fst (fold_left visit l (DBL_MAX, ""))) = false.
Proof.
  destruct (pass_spec l) as [[E _]|(pre & c & post & _ & _ & E & Hmax & _)];
    cbv zeta in E; rewrite E; cbn [fst].
  - split; vm_compute; reflexivity.
  - split; [apply (double_lt_not_nan _ _ Hmax) | apply double_lt_asym, Hmax].
Qed.

Lemma visit_merge (st st0 : State) (x : Combination) :
  not_nan (fst st0) = true ->
  visit (merge st st0) x = merge st (visit st0 x).
Proof.
  destruct st as [m b], st0 as [m0 b0]. cbn [fst]. intros Hn0.
  rewrite (visit_eq (m0, b0) x). unfold merge. cbn [fst].
  destruct (feasible x) eqn:F; cbn [andb].
  - destruct (cost_of x <? m0) eqn:C0.
    + cbn [fst]. destruct (m0 <? m) eqn:M.
      * rewrite visit_eq, F, (double_lt_trans _ _ _ C0 M). cbn [fst andb].
        rewrite C0. reflexivity.
      * rewrite visit_eq, F. cbn [fst andb]. reflexivity.
    + cbn [fst]. destruct (m0 <? m) eqn:M.
      * rewrite visit_eq, F. cbn [fst andb]. rewrite C0. reflexivity.
      * rewrite visit_eq, F. cbn [fst andb].
        destruct (cost_of x <? m) eqn:C; [|reflexivity].
        assert (Hle : (m <=? m0) = true).
        { apply double_lt_false_le; [exact M | exact Hn0 |].
          apply (double_lt_not_nan _ _ C). }
        rewrite (double_lt_le_trans _ _ _ C Hle) in C0. discriminate.
  - cbn [fst]. rewrite visit_eq, F. reflexivity.
Qed.

(** A pass started from any state whose cost is not above the initial
    [min_cost] ends as the merge of that state with the pass started afresh. *)
Lemma pass_from (l : list Combination) (st : State) :
  (DBL_MAX <? fst st) = false ->
  fold_left visit l st = merge st (fold_left visit l (DBL_MAX, "")).
Proof.
  intros Hst. induction l as [|x l IH] using rev_ind.
  - simpl. unfold merge. cbn [fst]. rewrite Hst. reflexivity.
  - rewrite !fold_left_app. cbn [fold_left]. rewrite IH.
    apply visit_merge. apply pass_min_cost.
Qed.

Lemma product_app amps1 amps2 sws atts divs :
  product (amps1 ++ amps2) sws atts divs =
  product amps1 sws atts divs ++ product amps2 sws atts divs.
Proof. unfold product. apply flat_map_app. Qed.

(** X4: the search over an amplifier catalog cut in two is the merge of the
    two searches: the result for the second part replaces the result for the
    first exactly when its cost is strictly lower.  The parts can thus be
    searched apart, and on equal costs the first part wins. *)
Theorem search_of_split_catalog amps1 amps2 sws atts divs :
  search (amps1 ++ amps2) sws atts divs =
  merge (search amps1 sws atts divs) (search amps2 sws atts divs).
Proof.
  rewrite !search_product, product_app, fold_left_app.
  apply pass_from. apply pass_min_cost.
Qed.

(** ** Larger catalogs, reordered catalogs *)

Lemma product_incl amps amps' sws sws' atts atts' divs divs' :
  incl amps amps' -> incl sws sws' -> incl atts atts' -> incl divs divs' ->
  incl (product amps sws atts divs) (product amps' sws' atts' divs').
Proof.
  intros Ha Hs Ht Hd [[[amp sw] att] div] Hin.
  apply in_product in Hin. apply in_product.
  destruct Hin as (H1 & H2 & H3 & H4). auto.
Qed.

Lemma report_monotone amps amps' sws sws' atts atts' divs divs' b m :
  incl amps amps' -> incl sws sws' -> incl atts atts' -> incl divs divs' ->
  printBestConfiguration amps sws atts divs = best_message b m ->
  exists b' m',
    printBestConfiguration amps' sws' atts' divs' = best_message b' m' /\
    (m' <=? m) = true.
Proof.
  intros Ha Hs Ht Hd H.
  destruct (reported_below_max _ _ _ _ _ _ H) as (c & Hin & Fc & _ & -> & Hlt).
  apply (product_incl _ _ _ _ _ _ _ _ Ha Hs Ht Hd) in Hin.
  destruct (output_spec amps' sws' atts' divs')
    as [[[_ Hn] _]|(pre & c' & post & (_ & _ & _ & Hmax & Hmin & _) & E)].
  - rewrite (Hn c Hin Fc) in Hlt. discriminate.
  - exists (text_of c'), (cost_of c'). split; [exact E|].
    apply double_lt_false_le.
    + apply Hmin; assumption.
    + apply (double_lt_not_nan _ _ Hlt).
    + apply (double_lt_not_nan _ _ Hmax).
Qed.

(** X5: adding entries to the catalogs never loses a report and never raises
    the reported cost: when a configuration is reported for catalogs, one is
    reported for any catalogs that contain them, at a cost less than or equal
    to the first. *)
Theorem larger_catalogs_cost_no_more amps amps' sws sws' atts atts' divs divs' b m :
  incl amps amps' -> incl sws sws' -> incl atts atts' -> incl divs divs' ->
  printBestConfiguration amps sws atts divs = best_message b m ->
  exists b' m',
    printBestConfiguration amps' sws' atts' divs' = best_message b' m' /\
    (m' <=? m) = true.
Proof. apply report_monotone. Qed.

Lemma larger_catalogs_cost_no_more_witness :
  incl [Amp_C] (Amp_C :: amplifiers) /\
  incl [Switch_1] switches /\ incl [Attenuator_2] attenuators /\
  incl [Divider_1] dividers /\
  printBestConfiguration [Amp_C] [Switch_1] [Attenuator_2] [Divider_1] =
    best_message
      "Amplifier: Amp-C, Switch: Switch-1, Attenuator: Attenuator-2, Power Divider: Divider-1"
      180 /\
  exists b' m',
    printBestConfiguration (Amp_C :: amplifiers) switches attenuators dividers =
      best_message b' m' /\
    (m' <=? 180) = true.
Proof.
  assert (Ha : incl [Amp_C] (Amp_C :: amplifiers))
    by (intros x [<-|[]]; simpl; auto).
  assert (Hs : incl [Switch_1] switches) by (intros x [<-|[]]; simpl; auto).
  assert (Ht : incl [Attenuator_2] attenuators) by (intros x [<-|[]]; simpl; auto).
  assert (Hd : incl [Divider_1] dividers) by (intros x [<-|[]]; simpl; auto).
  repeat (split; [assumption|]).
  split; [vm_compute; reflexivity|].
  apply (larger_catalogs_cost_no_more _ _ _ _ _ _ _ _
    "Amplifier: Amp-C, Switch: Switch-1, Attenuator: Attenuator-2, Power Divider: Divider-1"
    180 Ha Hs Ht Hd).
  vm_compute. reflexivity.
Defined.

Lemma output_cases amps sws atts divs :
  printBestConfiguration amps sws atts divs = no_valid_message \/
  exists b m, printBestConfiguration amps sws atts divs = best_message b m.
Proof.
  destruct (output_spec amps sws atts divs) as [[_ E]|(pre & c & post & _ & E)]; eauto.
Qed.

(** X6: the order of the entries in the catalogs, and their repetition, decide
    at most which of several equally cheap configurations is named.  For two
    inputs whose catalogs have the same members, either both runs write the
    fixed message or both report a configuration, and the two reported costs
    are equal. *)
Theorem same_members_same_cost amps amps' sws sws' atts atts' divs divs' :
  incl amps amps' -> incl amps' amps -> incl sws sws' -> incl sws' sws ->
  incl atts atts' -> incl atts' atts -> incl divs divs' -> incl divs' divs ->
  (printBestConfiguration amps sws atts divs = no_valid_message <->
   printBestConfiguration amps' sws' atts' divs' = no_valid_message) /\
  (forall b m b' m',
     printBestConfiguration amps sws atts divs = best_message b m ->
     printBestConfiguration amps' sws' atts' divs' = best_message b' m' ->
     (m =? m') = true).
Proof.
  intros Ha Ha' Hs Hs' Ht Ht' Hd Hd'. split; [split|].
  - intros E. destruct (output_cases amps' sws' atts' divs') as [E'|(b & m & E')];
      [exact E'|].
    destruct (report_monotone _ _ _ _ _ _ _ _ _ _ Ha' Hs' Ht' Hd' E') as (b2 & m2 & E2 & _).
    rewrite E in E2. discriminate.
  - intros E'. destruct (output_cases amps sws atts divs) as [E|(b & m & E)];
      [exact E|].
    destruct (report_monotone _ _ _ _ _ _ _ _ _ _ Ha Hs Ht Hd E) as (b2 & m2 & E2 & _).
    rewrite E' in E2. discriminate.
  - intros b m b' m' E E'.
    destruct (report_monotone _ _ _ _ _ _ _ _ _ _ Ha Hs Ht Hd E) as (b2 & m2 & E2 & L2).
    destruct (report_monotone _ _ _ _ _ _ _ _ _ _ Ha' Hs' Ht' Hd' E') as (b1 & m1 & E1 & L1).
    rewrite E' in E2. injection E2 as <- <-.
    rewrite E in E1. injection E1 as <- <-.
    apply double_le_antisym_eq; assumption.
Qed.

Lemma same_members_same_cost_witness :
  incl amplifiers (rev amplifiers) /\ incl (rev amplifiers) amplifiers /\
  incl switches (switches ++ rev switches) /\ incl (switches ++ rev switches) switches /\
  incl attenuators (rev attenuators) /\ incl (rev attenuators) attenuators /\
  incl dividers (rev dividers) /\ incl (rev dividers) dividers /\
  (printBestConfiguration amplifiers switches attenuators dividers = no_valid_message <->
   printBestConfiguration (rev amplifiers) (switches ++ rev switches)
     (rev attenuators) (rev dividers) = no_valid_message) /\
  (forall b m b' m',
     printBestConfiguration amplifiers switches attenuators dividers = best_message b m ->
     printBestConfiguration (rev amplifiers) (switches ++ rev switches)
       (rev attenuators) (rev dividers) = best_message b' m' ->
     (m =? m') = true).
Proof.
  assert (H1 : incl amplifiers (rev amplifiers)) by (intros x Hx; simpl in *; tauto).
  assert (H2 : incl (rev amplifiers) amplifiers) by (intros x Hx; simpl in *; tauto).
  assert (H3 : incl switches (switches ++ rev switches))
    by (intros x Hx; simpl in *; tauto).
  assert (H4 : incl (switches ++ rev switches) switches)
    by (intros x Hx; simpl in *; tauto).
  assert (H5 : incl attenuators (rev attenuators)) by (intros x Hx; simpl in *; tauto).
  assert (H6 : incl (rev attenuators) attenuators) by (intros x Hx; simpl in *; tauto).
  assert (H7 : incl dividers (rev dividers)) by (intros x Hx; simpl in *; tauto).
  assert (H8 : incl (rev dividers) dividers) by (intros x Hx; simpl in *; tauto).
  repeat (split; [assumption|]).
  exact (same_members_same_cost _ _ _ _ _ _ _ _ H1 H2 H3 H4 H5 H6 H7 H8).
Defined.

Example reversed_catalogs_name_another :
  printBestConfiguration (rev amplifiers) (rev switches) (rev attenuators) (rev dividers) =
  best_message
    "Amplifier: Amp-A, Switch: Switch-1, Attenuator: Attenuator-2, Power Divider: Divider-2"
    150.
Proof. vm_compute. reflexivity. Qed.

(** ** Discarding components before the search *)

Lemma pass_filter (p : Combination -> bool) (l : list Combination) (st : State) :
  (forall c, p c = false -> feasible c = false) ->
  fold_left visit (filter p l) st = fold_left visit l st.
Proof.
  intros Hp. revert st. induction l as [|c l IH]; intros st; simpl; [reflexivity|].
  destruct (p c) eqn:E; simpl.
  - apply IH.
  - rewrite (visit_eq st c), (Hp c E). simpl. apply IH.
Qed.

Lemma keep_false_infeasible (c : Combination) : keep c = false -> feasible c = false.
Proof.
  destruct c as [[[amp sw] att] div]. rewrite feasible_decompose. unfold keep.
  destruct (power_ok amp att div), (amp_ok amp), (sw_ok sw), (attenuation_ok att);
    simpl; congruence.
Qed.

Lemma filter_product_divs amp sw att divs :
  filter keep (product [amp] [sw] [att] divs) =
  if amp_ok amp && sw_ok sw && attenuation_ok att
  then product [amp] [sw] [att] divs else [].
Proof.
  unfold product. simpl. rewrite !app_nil_r.
  induction divs as [|div divs IH]; simpl.
  - destruct (amp_ok amp && sw_ok sw && attenuation_ok att); reflexivity.
  - rewrite IH. destruct (amp_ok amp && sw_ok sw && attenuation_ok att); reflexivity.
Qed.

Lemma product_cons_att amp sw att atts divs :
  product [amp] [sw] (att :: atts) divs =
  product [amp] [sw] [att] divs ++ product [amp] [sw] atts divs.
Proof. unfold product. simpl. rewrite !app_nil_r. reflexivity. Qed.

Lemma product_cons_sw amp sw sws atts divs :
  product [amp] (sw :: sws) atts divs =
  product [amp] [sw] atts divs ++ product [amp] sws atts divs.
Proof. unfold product. simpl. rewrite !app_nil_r. reflexivity. Qed.

Lemma product_cons_amp amp amps sws atts divs :
  product (amp :: amps) sws atts divs =
  product [amp] sws atts divs ++ product amps sws atts divs.
Proof. unfold product. simpl. rewrite !app_nil_r. reflexivity. Qed.

Lemma filter_product_atts amp sw atts divs :
  filter keep (product [amp] [sw] atts divs) =
  if amp_ok amp && sw_ok sw
  then product [amp] [sw] (filter attenuation_ok atts) divs else [].
Proof.
  induction atts as [|att atts IH].
  - simpl. destruct (amp_ok amp && sw_ok sw); reflexivity.
  - rewrite (product_cons_att amp sw att atts), filter_app, IH, filter_product_divs.
    cbn [filter]. destruct (amp_ok amp && sw_ok sw); cbn [andb]; [|reflexivity].
    destruct (attenuation_ok att); [|reflexivity].
    rewrite (product_cons_att amp sw att (filter attenuation_ok atts)). reflexivity.
Qed.

Lemma filter_product_sws amp sws atts divs :
  filter keep (product [amp] sws atts divs) =
  if amp_ok amp
  then product [amp] (filter sw_ok sws) (filter attenuation_ok atts) divs else [].
Proof.
  induction sws as [|sw sws IH].
  - simpl. destruct (amp_ok amp); reflexivity.
  - rewrite (product_cons_sw amp sw sws), filter_app, IH, filter_product_atts.
    cbn [filter]. destruct (amp_ok amp); cbn [andb]; [|reflexivity].
    destruct (sw_ok sw); [|reflexivity].
    rewrite (product_cons_sw amp sw (filter sw_ok sws)). reflexivity.
Qed.

Lemma filter_product amps sws atts divs :
  filter keep (product amps sws atts divs) =
  product (filter amp_ok amps) (filter sw_ok sws) (filter attenuation_ok atts) divs.
Proof.
  induction amps as [|amp amps IH].
  - reflexivity.
  - rewrite (product_cons_amp amp amps), filter_app, IH, filter_product_sws.
    cbn [filter]. destruct (amp_ok amp); [|reflexivity].
    rewrite (product_cons_amp amp (filter amp_ok amps)). reflexivity.
Qed.

(** X7: components that fail a check on their own fields can be discarded
    before the search: an amplifier whose compression points are below 12 or
    10.5, a switch whose gains or leakages are out of range, an attenuator set
    beyond its maximum.  The search over the catalogs so filtered ends in the
    same state and writes the same output. *)
Theorem prefiltering_is_sound amps sws atts divs :
  search (filter amp_ok amps) (filter sw_ok sws) (filter attenuation_ok atts) divs =
    search amps sws atts divs /\
  printBestConfiguration (filter amp_ok amps) (filter sw_ok sws)
      (filter attenuation_ok atts) divs =
    printBestConfiguration amps sws atts divs.
Proof.
  assert (E : search (filter amp_ok amps) (filter sw_ok sws)
                (filter attenuation_ok atts) divs = search amps sws atts divs).
  { rewrite !search_product, <- filter_product.
    apply pass_filter. apply keep_false_infeasible. }
  split; [exact E|]. unfold printBestConfiguration. rewrite E. reflexivity.
Qed.

Example prefiltered_example_catalogs :
  filter amp_ok amplifiers = [Amp_A] /\ filter sw_ok switches = switches /\
  filter attenuation_ok attenuators = attenuators.
Proof. repeat split; vm_compute; reflexivity. Qed.

(** ** The names *)

Lemma pass_same_cost (l l' : list Combination) (st st' : State) :
  Forall2 alike_in_numbers l l' -> same_cost_state st st' ->
  same_cost_state (fold_left visit l st) (fold_left visit l' st').
Proof.
  intros H. revert st st'.
  induction H as [|c c' l l' (Ef & Ec) _ IH]; intros st st' Hst; simpl.
  - exact Hst.
  - apply IH. rewrite (visit_eq st c), (visit_eq st' c'), Ef, Ec.
    destruct Hst as (Hm & Hb). rewrite Hm.
    destruct (feasible c' && (cost_of c' <? fst st')).
    + split; [reflexivity|]. cbn [snd]. rewrite !text_of_not_empty. reflexivity.
    + split; assumption.
Qed.

Lemma names_alike_in_numbers c c' :
  related amp_same_but_name sw_same_but_name att_same_but_name div_same_but_name c c' ->
  alike_in_numbers c c'.
Proof.
  destruct c as [[[amp sw] att] div], c' as [[[amp' sw'] att'] div'].
  destruct amp, amp', sw, sw', att, att', div, div'. simpl.
  intros (A & S & T & D).
  destruct A as (? & ? & ? & ? & ? & ? & ?), S as (? & ? & ? & ? & ? & ?),
    T as (? & ? & ? & ?), D as (? & ? & ?).
  simpl in *. subst. split; reflexivity.
Qed.

(** X8: the names are labels only.  For two inputs that differ only in the
    names of the components, the search ends at the same [min_cost]; either
    both runs write the fixed message or both report a configuration, at the
    same total cost. *)
Theorem names_are_labels amps amps' sws sws' atts atts' divs divs' :
  Forall2 amp_same_but_name amps amps' -> Forall2 sw_same_but_name sws sws' ->
  Forall2 att_same_but_name atts atts' -> Forall2 div_same_but_name divs divs' ->
  fst (search amps sws atts divs) = fst (search amps' sws' atts' divs') /\
  (printBestConfiguration amps sws atts divs = no_valid_message <->
   printBestConfiguration amps' sws' atts' divs' = no_valid_message) /\
  (forall b m, printBestConfiguration amps sws atts divs = best_message b m ->
     exists b', printBestConfiguration amps' sws' atts' divs' = best_message b' m).
Proof.
  intros Ha Hs Ht Hd.
  assert (H : same_cost_state (search amps sws atts divs) (search amps' sws' atts' divs')).
  { rewrite !search_product. apply pass_same_cost.
    - apply (Forall2_impl alike_in_numbers names_alike_in_numbers).
      apply product_related; assumption.
    - split; reflexivity. }
  unfold printBestConfiguration.
  destruct (search amps sws atts divs) as [m b],
    (search amps' sws' atts' divs') as [m' b'].
  destruct H as (Hm & Hb). cbn [fst snd] in *. subst m'. rewrite <- Hb.
  split; [reflexivity|]. destruct (string_empty b); cbn [negb]; split.
  - split; reflexivity.
  - intros b0 m0 E. discriminate E.
  - split; intros E; discriminate E.
  - intros b0 m0 E. injection E as <- <-. exists b'. reflexivity.
Qed.

Lemma names_are_labels_witness :
  Forall2 amp_same_but_name amplifiers amplifiers_renamed /\
  Forall2 sw_same_but_name switches switches_renamed /\
  Forall2 att_same_but_name attenuators attenuators_renamed /\
  Forall2 div_same_but_name dividers dividers_renamed /\
  fst (search amplifiers switches attenuators dividers) =
    fst (search amplifiers_renamed switches_renamed attenuators_renamed dividers_renamed) /\
  (printBestConfiguration amplifiers switches attenuators dividers = no_valid_message <->
   printBestConfiguration amplifiers_renamed switches_renamed attenuators_renamed
     dividers_renamed = no_valid_message) /\
  (forall b m,
     printBestConfiguration amplifiers switches attenuators dividers = best_message b m ->
     exists b', printBestConfiguration amplifiers_renamed switches_renamed
       attenuators_renamed dividers_renamed = best_message b' m).
Proof.
  split; [repeat constructor|]. split; [repeat constructor|].
  split; [repeat constructor|]. split; [repeat constructor|].
  apply (names_are_labels amplifiers amplifiers_renamed switches switches_renamed
           attenuators attenuators_renamed dividers dividers_renamed);
    repeat constructor.
Defined.

(** ** How often the loop body runs *)






